(** * remove-background-nextjs: mask normalisation, compositing, letterbox fit
      and the segmenter singleton, embedded from the TypeScript sources

    Sources embedded here:
      - [src/lib/removeBackground.ts]  (applySegmentationMask, extractMaskData,
        extractMaskFromImage, resizeMask, resizeMaskFromImageData)
      - [src/lib/imageUtils.ts]        (loadImage, loadImageToCanvas)
      - [src/lib/modelLoader.ts]       (getSegmenter, initializeModel,
        normalizeProgress)

    JavaScript Numbers are IEEE binary64 values.  They are modelled with the
    Standard Library's executable specification of binary floating point
    ([SpecFloat], precision 53, emax 1024), so that every quotient, product
    and rounding below is the one the engine computes.  Loop counters and
    array indices, which the code only ever holds as small non-negative
    integers, are [nat]. *)

From Stdlib Require Import ZArith Bool Lia.
From Stdlib Require Import Floats.SpecFloat.
From stdpp Require Import base list strings.

(* ===================================================================== *)
(** ** JavaScript Numbers *)
(* ===================================================================== *)

Module Num.

Local Open Scope Z_scope.

Definition prec : Z := 53.
Definition emax : Z := 1024.

(** A JavaScript Number. *)
Definition number : Type := spec_float.

Definition NaN : number := S754_nan.

(** The Number nearest to an integer (exact below 2^53). *)
Definition of_Z (z : Z) : number := binary_normalize prec emax z 0 false.
Definition of_nat (n : nat) : number := of_Z (Z.of_nat n).

Definition mul : number -> number -> number := SFmul prec emax.
Definition div : number -> number -> number := SFdiv prec emax.
Definition add : number -> number -> number := SFadd prec emax.
Definition sub : number -> number -> number := SFsub prec emax.

(** [a <= b], [a < b], [a > b], [a === b] on Numbers; every comparison with
    NaN is false. *)
Definition leb (a b : number) : bool := SFleb a b.
Definition ltb (a b : number) : bool := SFltb a b.
Definition gtb (a b : number) : bool := SFltb b a.
Definition eqb (a b : number) : bool := SFeqb a b.

(** ToBoolean on a Number: false for +0, -0 and NaN. *)
Definition truthy (a : number) : bool :=
  match a with
  | S754_zero _ | S754_nan => false
  | _ => true
  end.

(** The signed mantissa of a finite non-zero Number. *)
Definition signed (s : bool) (m : positive) : Z := cond_Zopp s (Zpos m).

(** floor (n * 2^e) and floor (n * 2^e + 1/2), computed on integers.
    [Z.shiftl] by a negative amount is the flooring division by a power
    of two. *)
Definition Zfloor_scaled (n e : Z) : Z := Z.shiftl n e.
Definition Zround_scaled (n e : Z) : Z :=
  if 0 <=? e then Z.shiftl n e else Z.shiftl (n + 2 ^ (- e - 1)) e.

(** Math.floor; a Number with a non-negative exponent is an integer
    already. *)
Definition math_floor (a : number) : number :=
  match a with
  | S754_finite s m e =>
      if 0 <=? e then a else of_Z (Zfloor_scaled (signed s m) e)
  | _ => a
  end.

(** Math.round: nearest integer, ties towards +infinity; a result of zero
    keeps the sign of the argument. *)
Definition math_round (a : number) : number :=
  match a with
  | S754_finite s m e =>
      if 0 <=? e then a
      else
        let r := Zround_scaled (signed s m) e in
        if r =? 0 then S754_zero s else of_Z r
  | _ => a
  end.

(** Math.min of two Numbers. *)
Definition math_min (a b : number) : number :=
  match a, b with
  | S754_nan, _ | _, S754_nan => S754_nan
  | S754_zero sa, S754_zero sb => S754_zero (sa || sb)
  | _, _ => if SFltb b a then b else a
  end.

(** The integer part of a Number, truncated towards zero; [None] for NaN
    and the infinities. *)
Definition trunc (a : number) : option Z :=
  match a with
  | S754_zero _ => Some 0
  | S754_finite s m e => Some (cond_Zopp s (Z.shiftl (Zpos m) e))
  | _ => None
  end.

(** The exact integer a Number rounds to under Math.round. *)
Definition round_int (a : number) : option Z :=
  match a with
  | S754_zero _ => Some 0
  | S754_finite s m e => Some (Zround_scaled (signed s m) e)
  | _ => None
  end.

(** ToUint8: the conversion a [Uint8Array] store applies.  NaN and the
    infinities become 0, everything else is truncated and wrapped
    modulo 256. *)
Definition to_uint8 (a : number) : Z :=
  match trunc a with
  | Some z => z mod 256
  | None => 0
  end.

(** ToUint8Clamp: the conversion a [Uint8ClampedArray] store applies.
    NaN becomes 0, the value is clamped to [0, 255] and rounded to the
    nearest integer, ties to even. *)
Definition to_uint8_clamp (a : number) : Z :=
  match a with
  | S754_finite false m e =>
      let f := Z.shiftl (Zpos m) e in
      if 255 <=? f then 255
      else if 0 <=? e then f
      else
        let rem := Zpos m mod 2 ^ (- e) in
        let mid := 2 ^ (- e - 1) in
        if rem <? mid then f
        else if mid <? rem then f + 1
        else if Z.even f then f else f + 1
  | S754_infinity false => 255
  | _ => 0
  end.

(** The array index a Number denotes as a property key, if any: only a
    non-negative integral value names an element. *)
Definition to_index (a : number) : option nat :=
  match a with
  | S754_zero _ => Some 0%nat
  | S754_finite false m e =>
      if 0 <=? e then Some (Z.to_nat (Z.shiftl (Zpos m) e))
      else if Z.shiftl (Z.shiftl (Zpos m) e) (- e) =? Zpos m
           then Some (Z.to_nat (Z.shiftl (Zpos m) e))
           else None
  | _ => None
  end.

(** Literals used by the sources. *)
Definition zero : number := S754_zero false.
Definition one : number := of_Z 1.
Definition n255 : number := of_Z 255.
Definition n100 : number := of_Z 100.
Definition two : number := of_Z 2.
Definition half : number := div one two.

End Num.

Import Num.

(* ===================================================================== *)
(** ** Control flow and results *)
(* ===================================================================== *)

(** [for (let i = 0; i < n; i++) body], threading the state the body
    updates. *)
Definition for_loop {St : Type} (n : nat) (body : nat -> St -> St) (s : St) : St :=
  foldl (fun acc i => body i acc) s (seq 0 n).

(** How a promise settles.  A rejection carries the message of the [Error]. *)
Inductive outcome (A : Type) : Type :=
  | Resolved (a : A)
  | Rejected (message : string).
Arguments Resolved {A} a.
Arguments Rejected {A} message.

(** A block with early [return]s: [Some r] when it returned [r], [None] when
    control fell out of its end.  [or_else] runs the next block on [None]. *)
Definition or_else {A : Type} (first : option A) (next : option A) : option A :=
  match first with
  | Some r => Some r
  | None => next
  end.

(* ===================================================================== *)
(** ** Typed arrays and array-likes *)
(* ===================================================================== *)

Module TypedArray.

(** Contents of a [Uint8Array] or a [Uint8ClampedArray]: one integer in
    [0, 255] per element. *)
Definition u8array : Type := list Z.

Definition is_u8 (z : Z) : Prop := (0 <= z < 256)%Z.

(** [new Uint8Array(n)]: zero-initialised. *)
Definition alloc (n : nat) : u8array := replicate n 0%Z.

(** [a.fill(v)] for an integer [v]. *)
Definition fill (a : u8array) (v : Z) : u8array :=
  replicate (length a) (v mod 256)%Z.

(** [a[i]]: the element as a Number, or [undefined] ([None]) out of
    range. *)
Definition read (a : u8array) (i : nat) : option number :=
  of_Z <$> a !! i.

(** [a[i] = v] on a [Uint8Array]: [undefined] converts to NaN, the Number
    goes through ToUint8, and a store out of range is ignored. *)
Definition write (a : u8array) (i : nat) (v : option number) : u8array :=
  <[ i := to_uint8 (default NaN v) ]> a.

(** A raw numeric buffer ([ArrayLike<number>]); [None] is an entry that is
    [undefined]. *)
Definition arraylike : Type := list (option number).

(** [data[i]] for a loop counter [i]. *)
Definition at_nat (data : arraylike) (i : nat) : option number :=
  mjoin (data !! i).

(** [data[k]] for a computed Number [k]. *)
Definition at_number (data : arraylike) (k : number) : option number :=
  match to_index k with
  | Some i => at_nat data i
  | None => None
  end.

(** [a[k]] on a typed array for a computed Number [k]. *)
Definition read_number (a : u8array) (k : number) : option number :=
  match to_index k with
  | Some i => read a i
  | None => None
  end.

(** [a[i] = v] on a [Uint8ClampedArray]. *)
Definition write_clamped (a : u8array) (i : nat) (v : option number) : u8array :=
  <[ i := to_uint8_clamp (default NaN v) ]> a.

(** [v ?? d] and [v || d] on a Number that may be [undefined]. *)
Definition nullish_or (v : option number) (d : number) : number :=
  default d v.
Definition falsy_or (v : option number) (d : number) : number :=
  match v with
  | Some n => if truthy n then n else d
  | None => d
  end.

End TypedArray.

Import TypedArray.

(* ===================================================================== *)
(** ** src/lib/removeBackground.ts *)
(* ===================================================================== *)

Module RemoveBackground.

(** *** The shapes a segmentation result is probed for

    The result is typed [any]; each record below lists exactly the
    properties the code reads, with [None] for a property that is absent
    (or, where the code tests truthiness, falsy). *)

(** What [mask.toCanvas()], [getContext('2d')] and [getImageData] give
    inside the [try] block. *)
Inductive canvas_attempt : Type :=
  | CanvasThrows
      (* some call in the block throws *)
  | CanvasNoContext
      (* [getContext('2d')] returns null *)
  | CanvasPixels (cwidth cheight : number) (pixels : u8array).
      (* [maskCanvas.width], [maskCanvas.height], [maskImageData.data] *)

Record Mask : Type := {
  mask_toCanvas : option canvas_attempt;   (* None: not a function *)
  mask_data : option arraylike;            (* None: [mask.data] falsy *)
  mask_width : option number;              (* None: [mask.width] undefined *)
  mask_height : option number;
  mask_toDataURL : option (outcome string) (* None: not a function;
                                              Rejected: the call throws or
                                              its promise rejects *)
}.

Inductive Segment : Type :=
  | SegFalsy                                  (* null, undefined, 0, ... *)
  | SegObject (mask : option Mask)            (* None: [segment.mask] falsy *)
              (score : option number).        (* None: not a number *)

Inductive SegResult : Type :=
  | ResFalsy                                  (* null, undefined, ... *)
  | ResArray (segments : list Segment)        (* [Array.isArray(result)] *)
  | ResObject (data : option arraylike).      (* any other value;
                                                 None: [result.data] falsy *)

(** [result.data]; a JavaScript array carries no [data] property. *)
Definition result_data (result : SegResult) : option arraylike :=
  match result with
  | ResObject data => data
  | _ => None
  end.

(** What the browser does for [extractMaskFromImage]. *)
Record Browser : Type := {
  image_loads : string -> bool;
    (* [img.onload] fires for this URL ([false]: [img.onerror] fires) *)
  canvas_context : bool;
    (* [canvas.getContext('2d')] is not null *)
  drawn_pixels : string -> nat -> nat -> u8array
    (* [getImageData(0, 0, w, h).data] after [drawImage(img, 0, 0, w, h)] *)
}.

(** [value <= 1 ? Math.round(value * 255) : Math.round(value)] *)
Definition normalize_value (value : number) : number :=
  if leb value one then math_round (mul value n255) else math_round value.

(** *** resizeMask *)
Definition resizeMask (data : arraylike) (srcWidth srcHeight : number)
    (dstWidth dstHeight : nat) : u8array :=
  let result := alloc (dstWidth * dstHeight) in
  let xRatio := div srcWidth (of_nat dstWidth) in
  let yRatio := div srcHeight (of_nat dstHeight) in
  for_loop dstHeight (fun y result =>
    for_loop dstWidth (fun x result =>
      let srcX := math_floor (mul (of_nat x) xRatio) in
      let srcY := math_floor (mul (of_nat y) yRatio) in
      let srcIndex := add (mul srcY srcWidth) srcX in
      let dstIndex := y * dstWidth + x in
      let value := falsy_or (at_number data srcIndex) zero in
      write result dstIndex (Some (normalize_value value)))
    result)
  result.

(** *** resizeMaskFromImageData *)
Definition resizeMaskFromImageData (data : u8array) (srcWidth srcHeight : number)
    (dstWidth dstHeight : nat) : u8array :=
  let result := alloc (dstWidth * dstHeight) in
  let xRatio := div srcWidth (of_nat dstWidth) in
  let yRatio := div srcHeight (of_nat dstHeight) in
  for_loop dstHeight (fun y result =>
    for_loop dstWidth (fun x result =>
      let srcX := math_floor (mul (of_nat x) xRatio) in
      let srcY := math_floor (mul (of_nat y) yRatio) in
      let srcIndex := mul (add (mul srcY srcWidth) srcX) (of_Z 4) in
      let dstIndex := y * dstWidth + x in
      write result dstIndex (Some (falsy_or (read_number data srcIndex) zero)))
    result)
  result.

(** *** extractMaskFromImage

    The promise rejects when the image fails to load or when no 2D context
    can be had; otherwise it resolves with the red channel of the mask
    image drawn at the target size. *)
Definition extractMaskFromImage (env : Browser) (imageUrl : string)
    (targetWidth targetHeight : nat) : outcome u8array :=
  if image_loads env imageUrl then
    if canvas_context env then
      let pixels := drawn_pixels env imageUrl targetWidth targetHeight in
      let totalPixels := targetWidth * targetHeight in
      let maskData := alloc totalPixels in
      Resolved (for_loop totalPixels (fun i maskData =>
                  write maskData i (read pixels (i * 4))) maskData)
    else Rejected "Failed to get canvas context"
  else Rejected "Failed to load mask image".

(** *** extractMaskData

    Each block of the cascade is a definition of its own; it gives
    [Some r] when the source returns [r] there and [None] when control
    leaves the block without returning. *)

(** [if (typeof mask.toCanvas === 'function') { try { ... } catch { } }] *)
Definition via_toCanvas (mask : Mask) (width height : nat)
    (maskData : u8array) : option (outcome u8array) :=
  match mask_toCanvas mask with
  | Some (CanvasPixels cwidth cheight maskPixels) =>
      if negb (eqb cwidth (of_nat width)) || negb (eqb cheight (of_nat height))
      then Some (Resolved
             (resizeMaskFromImageData maskPixels cwidth cheight width height))
      else Some (Resolved
             (for_loop (width * height) (fun i maskData =>
                write maskData i (read maskPixels (i * 4))) maskData))
  | Some CanvasNoContext => None
  | Some CanvasThrows => None
  | None => None
  end.

(** [if (mask.data) { ... }] *)
Definition via_data (mask : Mask) (width height : nat)
    (maskData : u8array) : option (outcome u8array) :=
  match mask_data mask with
  | Some data =>
      let maskWidth := falsy_or (mask_width mask) (of_nat width) in
      let maskHeight := falsy_or (mask_height mask) (of_nat height) in
      if negb (eqb maskWidth (of_nat width)) || negb (eqb maskHeight (of_nat height))
      then Some (Resolved (resizeMask data maskWidth maskHeight width height))
      else Some (Resolved
             (for_loop (width * height) (fun i maskData =>
                let value := nullish_or (at_nat data i) zero in
                write maskData i (Some (normalize_value value))) maskData))
  | None => None
  end.

(** [if (typeof mask.toDataURL === 'function') { try { return
    extractMaskFromImage(await mask.toDataURL(), width, height) } catch { } }]

    Only [mask.toDataURL()] is awaited inside the [try].  The promise that
    [extractMaskFromImage] returns is handed to [return] as it is, so the
    way it settles, resolved or rejected, is the way [extractMaskData]
    settles; the [catch] never sees it. *)
Definition via_toDataURL (env : Browser) (mask : Mask) (width height : nat)
    : option (outcome u8array) :=
  match mask_toDataURL mask with
  | Some (Resolved url) => Some (extractMaskFromImage env url width height)
  | Some (Rejected _) => None
  | None => None
  end.

(** [if (typeof segment.score === 'number') { ... }] *)
Definition via_score (score : option number) (maskData : u8array)
    : option (outcome u8array) :=
  match score with
  | Some score =>
      let threshold := half in
      Some (Resolved (fill maskData (if gtb score threshold then 255 else 0)))
  | None => None
  end.

(** [if (Array.isArray(result) && result.length > 0) { ... }] *)
Definition via_segments (env : Browser) (result : SegResult) (width height : nat)
    (maskData : u8array) : option (outcome u8array) :=
  match result with
  | ResArray (segment :: _) =>
      match segment with
      | SegFalsy => Some (Resolved (fill maskData 255))
      | SegObject mask score =>
          or_else
            match mask with
            | Some mask =>
                or_else (via_toCanvas mask width height maskData)
                  (or_else (via_data mask width height maskData)
                     (via_toDataURL env mask width height))
            | None => None
            end
            (via_score score maskData)
      end
  | _ => None
  end.

(** [if (result && result.data) { ... }] *)
Definition via_result_data (result : SegResult) (width height : nat)
    (maskData : u8array) : option (outcome u8array) :=
  match result_data result with
  | Some data =>
      Some (Resolved
        (for_loop (Nat.min (length data) (width * height)) (fun i maskData =>
           let value := nullish_or (at_nat data i) zero in
           write maskData i (Some (normalize_value value))) maskData))
  | None => None
  end.

Definition extractMaskData (env : Browser) (result : SegResult)
    (width height : nat) : outcome u8array :=
  let totalPixels := width * height in
  let maskData := alloc totalPixels in
  match result with
  | ResFalsy => Resolved (fill maskData 255)
  | _ =>
      match or_else (via_segments env result width height maskData)
              (via_result_data result width height maskData) with
      | Some r => r
      | None => Resolved (fill maskData 255)
      end
  end.

(** *** applySegmentationMask *)

(** The loop that writes the mask into the alpha channel
    ([pixels] is the [Uint8ClampedArray] of the image data). *)
Definition composite (pixels : u8array) (maskData : u8array) : u8array :=
  for_loop (length maskData) (fun i pixels =>
    write_clamped pixels (i * 4 + 3) (read maskData i)) pixels.

(** [outputCtx] is whether the output canvas gives a 2D context;
    [imageData] is [getImageData(canvas).data], [None] when that call
    throws for want of a context.  The result is the pixel data put on
    the output canvas. *)
Definition applySegmentationMask (env : Browser) (outputCtx : bool)
    (imageData : option u8array) (width height : nat)
    (segmentationResult : SegResult) : outcome u8array :=
  if outputCtx then
    match imageData with
    | Some pixels =>
        match extractMaskData env segmentationResult width height with
        | Resolved maskData => Resolved (composite pixels maskData)
        | Rejected e => Rejected e
        end
    | None => Rejected "Failed to get canvas context"
    end
  else Rejected "Failed to get output canvas context".

End RemoveBackground.

(* ===================================================================== *)
(** ** src/lib/imageUtils.ts *)
(* ===================================================================== *)

Module ImageUtils.

Definition MODEL_INPUT_SIZE : nat := 1024.

(** The arguments of
    [ctx.drawImage(img, offsetX, offsetY, scaledWidth, scaledHeight)]. *)
Record DrawRect : Type := {
  scale : number;
  scaledWidth : number;
  scaledHeight : number;
  offsetX : number;
  offsetY : number
}.

(** The scaling and centring arithmetic of [loadImageToCanvas]. *)
Definition fit (targetSize imgWidth imgHeight : nat) : DrawRect :=
  let scale := math_min (div (of_nat targetSize) (of_nat imgWidth))
                        (div (of_nat targetSize) (of_nat imgHeight)) in
  let scaledWidth := mul (of_nat imgWidth) scale in
  let scaledHeight := mul (of_nat imgHeight) scale in
  let offsetX := div (sub (of_nat targetSize) scaledWidth) two in
  let offsetY := div (sub (of_nat targetSize) scaledHeight) two in
  {| scale := scale; scaledWidth := scaledWidth; scaledHeight := scaledHeight;
     offsetX := offsetX; offsetY := offsetY |}.

Record ImageLoadResult : Type := {
  canvasWidth : nat;
  canvasHeight : nat;
  drawn : DrawRect;
  originalWidth : nat;
  originalHeight : nat
}.

(** [loadImage] resolves with the decoded image, here its natural size
    ([None]: [img.onerror] fires). *)
Definition loadImage (decoded : option (nat * nat)) : outcome (nat * nat) :=
  match decoded with
  | Some img => Resolved img
  | None => Rejected "Failed to load image"
  end.

(** [ctx] is whether [canvas.getContext('2d')] is not null. *)
Definition loadImageToCanvas (decoded : option (nat * nat)) (ctx : bool)
    (targetSize : nat) : outcome ImageLoadResult :=
  match loadImage decoded with
  | Rejected e => Rejected e
  | Resolved (imgWidth, imgHeight) =>
      if ctx then
        Resolved {| canvasWidth := targetSize; canvasHeight := targetSize;
                    drawn := fit targetSize imgWidth imgHeight;
                    originalWidth := imgWidth; originalHeight := imgHeight |}
      else Rejected "Failed to get canvas context"
  end.

End ImageUtils.

(* ===================================================================== *)
(** ** src/lib/modelLoader.ts *)
(* ===================================================================== *)

Module ModelLoader.

(** *** normalizeProgress *)

Inductive Status : Type := Initiate | Download | Progress | Done | Ready.

Record ProgressInfo : Type := {
  status : Status;
  name : option string;
  file : option string;
  progress : option number;
  loaded : option number;
  total : option number
}.

Definition is_progress (s : Status) : bool :=
  match s with Progress => true | _ => false end.
Definition is_done (s : Status) : bool :=
  match s with Done => true | _ => false end.
Definition is_ready (s : Status) : bool :=
  match s with Ready => true | _ => false end.

(** ToBoolean of an optional Number property. *)
Definition truthy_prop (v : option number) : bool :=
  match v with
  | Some n => truthy n
  | None => false
  end.

(** The percentage [normalizeProgress] computes. *)
Definition percentage (data : ProgressInfo) : number :=
  if is_progress (status data) && truthy_prop (loaded data)
     && truthy_prop (total data)
  then math_round (mul (div (default NaN (loaded data))
                            (default NaN (total data))) n100)
  else if is_done (status data) then n100
  else if is_ready (status data) then n100
  else zero.

Definition normalizeProgress (data : ProgressInfo) : ProgressInfo :=
  {| status := status data; name := name data; file := file data;
     progress := Some (percentage data);
     loaded := loaded data; total := total data |}.

(** *** getSegmenter

    The module keeps [segmenterInstance] and [loadingPromise].  The
    promises [initializeModel] has created are kept in [loads], in order
    of creation: a promise is named by its position there and holds
    [None] while pending.  The number of loads started is the length of
    [loads]. *)

Section Singleton.

(** The pipeline object; any such object is truthy. *)
Variable Segmenter : Type.

(** What the [try] block of [initializeModel] ends with. *)
Inductive backend_result : Type :=
  | Loaded (segmenter : Segmenter)
  | ThrowsError (message : string)     (* an [Error] instance *)
  | ThrowsOther.                       (* any other thrown value *)

(** How the promise of [initializeModel] settles. *)
Definition initializeModel (b : backend_result) : outcome Segmenter :=
  match b with
  | Loaded segmenter => Resolved segmenter
  | ThrowsError message => Rejected message
  | ThrowsOther => Rejected "Failed to load model"
  end.

Record State : Type := {
  segmenterInstance : option Segmenter;
  loadingPromise : option nat;
  loads : list (option (outcome Segmenter))
}.

Definition initial : State :=
  {| segmenterInstance := None; loadingPromise := None; loads := [] |}.

(** What the promise returned by a [getSegmenter] call is tied to. *)
Inductive returned : Type :=
  | Instance (segmenter : Segmenter)   (* resolved with the cached instance *)
  | InFlight (p : nat).                (* settles as load [p] settles *)

(** The synchronous part of [getSegmenter], up to its [await]. *)
Definition getSegmenter (st : State) : State * returned :=
  match segmenterInstance st with
  | Some segmenter => (st, Instance segmenter)
  | None =>
      match loadingPromise st with
      | Some p => (st, InFlight p)
      | None =>
          let p := length (loads st) in
          ({| segmenterInstance := segmenterInstance st;
              loadingPromise := Some p;
              loads := loads st ++ [None] |},
           InFlight p)
      end
  end.

(** The rest of [getSegmenter] after [await loadingPromise], run for the
    call that started the load. *)
Definition resume (st : State) (r : outcome Segmenter) : State :=
  match r with
  | Resolved segmenter =>
      {| segmenterInstance := Some segmenter;
         loadingPromise := loadingPromise st;
         loads := loads st |}
  | Rejected _ =>
      {| segmenterInstance := segmenterInstance st;
         loadingPromise := None;
         loads := loads st |}
  end.

(** Load [p] settles: its promise takes its value and the call that
    awaited it resumes.  Settling a promise that is not pending does
    nothing. *)
Definition settle (st : State) (p : nat) (b : backend_result) : State :=
  match loads st !! p with
  | Some None =>
      let r := initializeModel b in
      resume {| segmenterInstance := segmenterInstance st;
                loadingPromise := loadingPromise st;
                loads := <[ p := Some r ]> (loads st) |} r
  | _ => st
  end.

(** How the promise a call returned has settled, if it has. *)
Definition observed (st : State) (h : returned) : option (outcome Segmenter) :=
  match h with
  | Instance segmenter => Some (Resolved segmenter)
  | InFlight p => mjoin (loads st !! p)
  end.

(** [n] calls of [getSegmenter] in a row, with what each returned. *)
Fixpoint calls (n : nat) (st : State) : State * list returned :=
  match n with
  | O => (st, [])
  | S n =>
      let '(st1, h) := getSegmenter st in
      let '(st2, hs) := calls n st1 in
      (st2, h :: hs)
  end.

End Singleton.

Arguments Loaded {Segmenter} segmenter.
Arguments ThrowsError {Segmenter} message.
Arguments ThrowsOther {Segmenter}.
Arguments Instance {Segmenter} segmenter.
Arguments InFlight {Segmenter} p.
Arguments initial {Segmenter}.
Arguments getSegmenter {Segmenter} st.
Arguments resume {Segmenter} st r.
Arguments settle {Segmenter} st p b.
Arguments observed {Segmenter} st h.
Arguments calls {Segmenter} n st.
Arguments initializeModel {Segmenter} b.
Arguments segmenterInstance {Segmenter} s.
Arguments loadingPromise {Segmenter} s.
Arguments loads {Segmenter} s.

End ModelLoader.

(* ===================================================================== *)
(** * Vocabulary of the properties *)
(* ===================================================================== *)

Import RemoveBackground.

(** A loop whose [i]-th round stores [val i] at index [idx i]. *)
Definition write_loop {A : Type} (idx : nat -> nat) (val : nat -> A)
    (n : nat) (a : list A) : list A :=
  for_loop n (fun i a => <[ idx i := val i ]> a) a.

(** Two nested loops that store [val x y] at [y * w + x], as the resampling
    loops do. *)
Definition grid_loop {A : Type} (val : nat -> nat -> A)
    (w h : nat) (a : list A) : list A :=
  for_loop h (fun y a =>
    for_loop w (fun x a => <[ y * w + x := val x y ]> a) a) a.

(** [maskWidth !== width || maskHeight !== height] *)
Definition dims_differ (w h : number) (width height : nat) : bool :=
  negb (eqb w (of_nat width)) || negb (eqb h (of_nat height)).

(** The source coordinate sampled for target coordinate [k]:
    [Math.floor(k * ratio)] with [ratio = src / dst]. *)
Definition nearest (k : nat) (src : number) (dst : nat) : number :=
  math_floor (mul (of_nat k) (div src (of_nat dst))).

(** The flat index [srcY * srcWidth + srcX] of a source pixel. *)
Definition source_index (srcX srcY srcWidth : number) : number :=
  add (mul srcY srcWidth) srcX.

(** What [resizeMask] stores for target pixel [(x, y)]. *)
Definition resizeMask_sample (data : arraylike) (srcWidth srcHeight : number)
    (dstWidth dstHeight : nat) (x y : nat) : Z :=
  to_uint8 (normalize_value
    (falsy_or
       (at_number data
          (source_index (nearest x srcWidth dstWidth)
             (nearest y srcHeight dstHeight) srcWidth))
       zero)).

(** What [resizeMaskFromImageData] stores for target pixel [(x, y)]: the red
    channel of the sampled source pixel, as it is. *)
Definition resizeImageData_sample (data : u8array) (srcWidth srcHeight : number)
    (dstWidth dstHeight : nat) (x y : nat) : Z :=
  to_uint8
    (falsy_or
       (read_number data
          (mul (source_index (nearest x srcWidth dstWidth)
                  (nearest y srcHeight dstHeight) srcWidth)
               (of_Z 4)))
       zero).

(** The coordinate as the specification words it, [floor(k * src / dst)],
    in exact arithmetic. *)
Definition spec_nearest (k src dst : nat) : nat := (k * src) / dst.

(** The same words evaluated from left to right in Numbers:
    [Math.floor(k * src / dst)]. *)
Definition spec_nearest_number (k src dst : nat) : number :=
  math_floor (div (mul (of_nat k) (of_nat src)) (of_nat dst)).

(** The value-normalised sample of a raw buffer at the coordinates the
    specification names for target pixel [(x, y)]. *)
Definition spec_resizeMask_sample (data : arraylike) (srcWidth srcHeight : nat)
    (dstWidth dstHeight : nat) (x y : nat) : Z :=
  to_uint8 (normalize_value
    (falsy_or
       (at_nat data (spec_nearest y srcHeight dstHeight * srcWidth
                     + spec_nearest x srcWidth dstWidth))
       zero)).

(** [buf] is the resampled buffer in the specification's sense. *)
Definition spec_resampled (data : arraylike) (srcWidth srcHeight : nat)
    (dstWidth dstHeight : nat) (buf : u8array) : Prop :=
  forall x y, x < dstWidth -> y < dstHeight ->
    buf !! (y * dstWidth + x)
    = Some (spec_resizeMask_sample data srcWidth srcHeight dstWidth dstHeight x y).

(** A row of [n] samples, each holding its own column number. *)
Definition ramp (n : nat) : arraylike := (fun i => Some (of_nat i)) <$> seq 0 n.

(** [sized n r]: if the promise [r] resolves, it resolves with a buffer of
    [n] elements. *)
Definition sized (n : nat) (r : outcome u8array) : Prop :=
  forall buf, r = Resolved buf -> length buf = n.

(** *** Inputs used in the examples *)

(** A mask that is only a raw buffer, with optional declared dimensions. *)
Definition raw_mask (data : arraylike) (w h : option number) : Mask :=
  {| mask_toCanvas := None; mask_data := Some data;
     mask_width := w; mask_height := h; mask_toDataURL := None |}.

(** A mask that only offers [toDataURL], which gives [url]. *)
Definition url_mask (url : string) : Mask :=
  {| mask_toCanvas := None; mask_data := None;
     mask_width := None; mask_height := None;
     mask_toDataURL := Some (Resolved url) |}.

(** A mask whose [toDataURL] itself throws or rejects. *)
Definition broken_url_mask : Mask :=
  {| mask_toCanvas := None; mask_data := None;
     mask_width := None; mask_height := None;
     mask_toDataURL := Some (Rejected "toDataURL failed") |}.

(** A mask with [toCanvas], giving a canvas of the stated size and pixels. *)
Definition canvas_mask (w h : number) (pixels : u8array) : Mask :=
  {| mask_toCanvas := Some (CanvasPixels w h pixels); mask_data := None;
     mask_width := None; mask_height := None; mask_toDataURL := None |}.

(** A browser in which no image loads. *)
Definition offline_browser : Browser :=
  {| image_loads := fun _ => false; canvas_context := true;
     drawn_pixels := fun _ _ _ => [] |}.

(** A browser in which every image loads and is drawn as opaque white. *)
Definition white_browser : Browser :=
  {| image_loads := fun _ => true; canvas_context := true;
     drawn_pixels := fun _ w h => replicate (4 * (w * h)) 255%Z |}.

Definition n128 : number := of_Z 128.
Definition n256 : number := of_Z 256.
Definition n300 : number := of_Z 300.

(** [shifts j g]: [g] shifts the mantissa of a rounding record right by [j]
    bits and keeps the record exact when only zero bits fall off an exact
    record. *)
Definition shifts (j : Z) (g : shr_record -> shr_record) : Prop :=
  forall mrs, (0 <= shr_m mrs)%Z ->
    shr_m (g mrs) = (shr_m mrs / 2 ^ j)%Z /\
    ((shr_m mrs mod 2 ^ j)%Z = 0%Z -> shr_r mrs = false -> shr_s mrs = false ->
     shr_r (g mrs) = false /\ shr_s (g mrs) = false).

(** [at_most a n]: the Number [a] is +0 or a positive finite Number of value
    at most the integer [n], held with a negative exponent. *)
Definition at_most (a : number) (n : Z) : Prop :=
  a = S754_zero false \/
  exists m e, a = S754_finite false m e /\ (e < 0)%Z /\
              (Zpos m <= n * 2 ^ (- e))%Z.

(** *** Progress events and runs *)

Import ModelLoader.

(** A raw progress event as the loader reports it. *)
Definition raw_event (st : Status) (fname : string)
    (l t : option number) : ProgressInfo :=
  {| status := st; name := Some "briaai/RMBG-1.4"; file := Some fname;
     progress := None; loaded := l; total := t |}.

(** A byte-progress event with byte counts [l] of [t]. *)
Definition bytes_event (fname : string) (l t : nat) : ProgressInfo :=
  raw_event Progress fname (Some (of_nat l)) (Some (of_nat t)).

(** The percentages [normalizeProgress] reports over a run of events. *)
Definition percentages (events : list ProgressInfo) : list (option number) :=
  (fun e => progress (normalizeProgress e)) <$> events.

(** Their integer values. *)
Definition percent_values (events : list ProgressInfo) : list (option Z) :=
  (fun e => trunc (percentage e)) <$> events.

(** The percentages of a run never go down. *)
Definition nondecreasing_run (events : list ProgressInfo) : Prop :=
  forall i j a b, i <= j ->
    percent_values events !! i = Some (Some a) ->
    percent_values events !! j = Some (Some b) ->
    (a <= b)%Z.

(** A model of two files: each is announced, downloaded and done, then the
    pipeline is ready. *)
Definition two_file_run : list ProgressInfo :=
  [ raw_event Initiate "config.json" None None;
    raw_event Download "config.json" None None;
    bytes_event "config.json" 100 100;
    raw_event Done "config.json" None None;
    raw_event Initiate "model.onnx" None None;
    raw_event Download "model.onnx" None None;
    bytes_event "model.onnx" 50 200;
    bytes_event "model.onnx" 200 200;
    raw_event Done "model.onnx" None None;
    raw_event Ready "model.onnx" None None ].

(* ===================================================================== *)
(** * Further vocabulary: the remaining branches of [extractMaskData] *)
(* ===================================================================== *)

(** A mask whose [toCanvas] probe falls through: the method is absent, or a
    call in the [try] block throws, or no 2D context is to be had. *)
Definition toCanvas_unusable (mask : Mask) : Prop :=
  match mask_toCanvas mask with
  | Some (CanvasPixels _ _ _) => False
  | _ => True
  end.

(** A mask whose [toDataURL] probe falls through: the method is absent, or
    calling and awaiting it fails (which the [catch] absorbs). *)
Definition toDataURL_unusable (mask : Mask) : Prop :=
  match mask_toDataURL mask with
  | Some (Resolved _) => False
  | _ => True
  end.

(** A mask, if there is one, that none of the probes of the cascade returns
    from. *)
Definition mask_unusable (mask : option Mask) : Prop :=
  match mask with
  | Some mask =>
      toCanvas_unusable mask /\ mask_data mask = None /\ toDataURL_unusable mask
  | None => True
  end.

(** The same mask with [toCanvas] taken away. *)
Definition without_toCanvas (mask : Mask) : Mask :=
  {| mask_toCanvas := None; mask_data := mask_data mask;
     mask_width := mask_width mask; mask_height := mask_height mask;
     mask_toDataURL := mask_toDataURL mask |}.

(** [bytes r]: if the promise [r] resolves, every element of the buffer is a
    byte. *)
Definition bytes (r : outcome u8array) : Prop :=
  forall buf, r = Resolved buf -> Forall is_u8 buf.

(** A mask offering all three probes: a [toCanvas] that throws, a raw
    buffer, and a [toDataURL]. *)
Definition layered_mask : Mask :=
  {| mask_toCanvas := Some CanvasThrows;
     mask_data := Some [Some one; Some zero];
     mask_width := None; mask_height := None;
     mask_toDataURL := Some (Resolved "blob:mask") |}.

(* ===================================================================== *)
(** * src/lib/removeBackground.ts: the pipeline *)
(* ===================================================================== *)

Module Pipeline.

Import ImageUtils.

Inductive ProcessingStage : Type :=
  | StageLoadingModel       (* 'loading-model' *)
  | StagePreprocessing      (* 'preprocessing' *)
  | StageInference          (* 'inference' *)
  | StagePostprocessing     (* 'postprocessing' *)
  | StageComplete.          (* 'complete' *)

(** One call of [onProgress(stage, progress, message)]. *)
Record StageEvent : Type := {
  stage : ProcessingStage;
  percent : number;
  message : string
}.

Record RemoveBackgroundResult : Type := {
  canvas : u8array;             (* the pixel data of the output canvas *)
  resultWidth : nat;            (* [originalWidth] *)
  resultHeight : nat;           (* [originalHeight] *)
  processingTime : number
}.

Section Run.

(** The pipeline handle [getSegmenter] resolves with. *)
Variable Segmenter : Type.

(** What a run meets outside the code embedded here. *)
Record World : Type := {
  clock_start : number;            (* [performance.now()] on entry *)
  clock_end : number;              (* [performance.now()] at the end *)
  model : outcome Segmenter;       (* how [getSegmenter(...)] settles *)
  decoded : option (nat * nat);    (* the decoded file, for [loadImage] *)
  canvas_2d : bool;                (* the input canvas gives a 2D context *)
  data_url : string;               (* [canvas.toDataURL('image/png')] *)
  infer : Segmenter -> string -> outcome SegResult;
                                   (* how the segmenter call settles *)
  output_2d : bool;                (* the output canvas gives a 2D context *)
  image_data : option u8array;     (* [getImageData(canvas).data] *)
  browser : Browser
}.

Definition emit (s : ProcessingStage) (p : number) (m : string) : StageEvent :=
  {| stage := s; percent := p; message := m |}.

(** [removeBackground]: the calls of [onProgress] in order, and how the
    promise settles.  An [await] on a rejected promise ends the run
    there. *)
Definition removeBackground (w : World)
    : list StageEvent * outcome RemoveBackgroundResult :=
  let startTime := clock_start w in
  let ev0 := [emit StageLoadingModel zero "Loading AI model..."] in
  match model w with
  | Rejected e => (ev0, Rejected e)
  | Resolved segmenter =>
  let ev1 := ev0 ++ [emit StageLoadingModel n100 "Model ready";
                     emit StagePreprocessing zero "Loading image..."] in
  match loadImageToCanvas (decoded w) (canvas_2d w) MODEL_INPUT_SIZE with
  | Rejected e => (ev1, Rejected e)
  | Resolved loaded =>
  let ev2 := ev1 ++ [emit StagePreprocessing n100 "Image loaded";
                     emit StageInference zero "Processing image..."] in
  let imageDataUrl := data_url w in
  match infer w segmenter imageDataUrl with
  | Rejected e => (ev2, Rejected e)
  | Resolved result =>
  let ev3 := ev2 ++ [emit StageInference n100 "Segmentation complete";
                     emit StagePostprocessing zero "Applying transparency..."] in
  match applySegmentationMask (browser w) (output_2d w) (image_data w)
          (canvasWidth loaded) (canvasHeight loaded) result with
  | Rejected e => (ev3, Rejected e)
  | Resolved outputCanvas =>
  let ev4 := ev3 ++ [emit StagePostprocessing n100 "Processing complete";
                     emit StageComplete n100 "Done"] in
  let processingTime := sub (clock_end w) startTime in
  (ev4, Resolved {| canvas := outputCanvas;
                    resultWidth := originalWidth loaded;
                    resultHeight := originalHeight loaded;
                    processingTime := processingTime |})
  end end end end.

(** The calls of [onProgress] of a run that goes through. *)
Definition all_events : list StageEvent :=
  [ emit StageLoadingModel zero "Loading AI model...";
    emit StageLoadingModel n100 "Model ready";
    emit StagePreprocessing zero "Loading image...";
    emit StagePreprocessing n100 "Image loaded";
    emit StageInference zero "Processing image...";
    emit StageInference n100 "Segmentation complete";
    emit StagePostprocessing zero "Applying transparency...";
    emit StagePostprocessing n100 "Processing complete";
    emit StageComplete n100 "Done" ].

End Run.

Arguments clock_start {Segmenter} w.
Arguments clock_end {Segmenter} w.
Arguments model {Segmenter} w.
Arguments decoded {Segmenter} w.
Arguments canvas_2d {Segmenter} w.
Arguments data_url {Segmenter} w.
Arguments infer {Segmenter} w.
Arguments output_2d {Segmenter} w.
Arguments image_data {Segmenter} w.
Arguments browser {Segmenter} w.
Arguments removeBackground {Segmenter} w.

End Pipeline.

(** A run in which everything works and the segmenter gives nothing: the
    file decodes to 2000x1000 and the clock advances by 250 ms. *)
Definition quiet_world : Pipeline.World nat :=
  {| Pipeline.clock_start := of_Z 1000; Pipeline.clock_end := of_Z 1250;
     Pipeline.model := Resolved 0;
     Pipeline.decoded := Some (2000, 1000);
     Pipeline.canvas_2d := true;
     Pipeline.data_url := "data:image/png;base64,";
     Pipeline.infer := fun _ _ => Resolved ResFalsy;
     Pipeline.output_2d := true;
     Pipeline.image_data := Some [];
     Pipeline.browser := offline_browser |}.

Definition quiet_result : Pipeline.RemoveBackgroundResult :=
  {| Pipeline.canvas := composite [] (fill (alloc (1024 * 1024)) 255);
     Pipeline.resultWidth := 2000; Pipeline.resultHeight := 1000;
     Pipeline.processingTime := sub (of_Z 1250) (of_Z 1000) |}.

(* ===================================================================== *)
(** * src/lib/imageUtils.ts: file validation *)
(* ===================================================================== *)

Module ImageFile.

Definition SUPPORTED_FORMATS : list string :=
  ["image/jpeg"; "image/png"; "image/webp"].

(** 10 MB, in bytes. *)
Definition MAX_FILE_SIZE : N := (10 * 1024 * 1024)%N.

(** What the code reads of a [File]. *)
Record File : Type := {
  file_name : string;
  file_type : string;
  file_size : N
}.

Record Validation : Type := {
  valid : bool;
  error : option string
}.

Definition validateImageFile (file : File) : Validation :=
  if negb (bool_decide (file_type file ∈ SUPPORTED_FORMATS)) then
    {| valid := false;
       error := Some "Unsupported format. Please use JPG, PNG, or WebP." |}
  else if (MAX_FILE_SIZE <? file_size file)%N then
    {| valid := false;
       error := Some "File too large. Maximum size is 10MB." |}
  else {| valid := true; error := None |}.

End ImageFile.

(* ===================================================================== *)
(** * src/lib/modelLoader.ts: the rest of the module *)
(* ===================================================================== *)

Module ModelLifecycle.

Import ModelLoader.

(** The two events the module makes itself. *)
Definition initiate_event : ProgressInfo :=
  {| status := Initiate; name := None; file := None;
     progress := Some zero; loaded := None; total := None |}.
Definition ready_event : ProgressInfo :=
  {| status := Ready; name := None; file := None;
     progress := Some n100; loaded := None; total := None |}.

(** What [dispose] is on a pipeline object, and what calling it does: it is
    not a function; it is one and the call itself throws; or it is one and
    the call returns, a value or a promise, which the [await] then waits
    for. *)
Inductive Dispose : Type :=
  | NoDispose
  | DisposeThrows
  | DisposeReturns.

Section Lifecycle.

Variable Segmenter : Type.

(** [segmenterInstance.dispose] of each pipeline object. *)
Variable dispose : Segmenter -> Dispose.

Definition isModelReady (st : State Segmenter) : bool :=
  match segmenterInstance st with
  | Some _ => true
  | None => false
  end.

Definition isModelLoading (st : State Segmenter) : bool :=
  match loadingPromise st, segmenterInstance st with
  | Some _, None => true
  | _, _ => false
  end.

(** [preloadModel]: a [getSegmenter] call whose promise is only given a
    [catch]. *)
Definition preloadModel (st : State Segmenter) : State Segmenter :=
  match segmenterInstance st, loadingPromise st with
  | None, None => fst (getSegmenter st)
  | _, _ => st
  end.

(** The two assignments that end [disposeModel]. *)
Definition disposeModel_finish (st : State Segmenter) : State Segmenter :=
  {| segmenterInstance := None; loadingPromise := None; loads := loads st |}.

(** [disposeModel] up to the point where it gives control back: at its
    [await] on what the instance's own [dispose()] returned ([true]: the
    assignments are still to come, and run as [disposeModel_finish] when
    that settles, whether it resolves or rejects), or at its end
    ([false]).  Without a [dispose] function nothing is awaited, and a
    [dispose()] that throws in the call is caught before anything is
    awaited: in both cases the assignments follow at once. *)
Definition disposeModel (st : State Segmenter) : State Segmenter * bool :=
  match segmenterInstance st with
  | Some segmenter =>
      match dispose segmenter with
      | DisposeReturns => (st, true)
      | NoDispose | DisposeThrows => (disposeModel_finish st, false)
      end
  | None =>
      ({| segmenterInstance := segmenterInstance st;
          loadingPromise := None;
          loads := loads st |}, false)
  end.

(** What [initializeModel] passes to [onProgress], given the raw events the
    backend reported and how it ended. *)
Definition initializeModel_progress (raw : list ProgressInfo)
    (b : backend_result Segmenter) : list ProgressInfo :=
  initiate_event :: (normalizeProgress <$> raw) ++
  match b with
  | Loaded _ => [ready_event]
  | _ => []
  end.

(** What the [onProgress] of one [getSegmenter] call made in state [st]
    receives over time; [raw] and [b] describe the load it starts, if it
    starts one. *)
Definition delivered (st : State Segmenter) (raw : list ProgressInfo)
    (b : backend_result Segmenter) : list ProgressInfo :=
  match segmenterInstance st with
  | Some _ => [ready_event]
  | None =>
      match loadingPromise st with
      | Some _ => []
      | None => initializeModel_progress raw b
      end
  end.

(** [n] calls of [getSegmenter] in a row, each with an [onProgress] of its
    own: what each of them receives over time, [raw] and [b] describing the
    load that one of them may start. *)
Fixpoint deliveries (n : nat) (st : State Segmenter) (raw : list ProgressInfo)
    (b : backend_result Segmenter) : list (list ProgressInfo) :=
  match n with
  | O => []
  | S n => delivered st raw b :: deliveries n (fst (getSegmenter st)) raw b
  end.

End Lifecycle.

Arguments isModelReady {Segmenter} st.
Arguments isModelLoading {Segmenter} st.
Arguments preloadModel {Segmenter} st.
Arguments disposeModel_finish {Segmenter} st.
Arguments disposeModel {Segmenter} dispose st.
Arguments initializeModel_progress {Segmenter} raw b.
Arguments delivered {Segmenter} st raw b.
Arguments deliveries {Segmenter} n st raw b.

End ModelLifecycle.

(** A raw progress event as the loader is expected to report it: any event
    that is not a byte-progress event, a byte-progress event with [loaded]
    or [total] missing or zero, or one with byte counts
    [0 < loaded <= total]. *)
Definition well_formed_raw (e : ModelLoader.ProgressInfo) : Prop :=
  ModelLoader.status e <> ModelLoader.Progress \/
  ModelLoader.truthy_prop (ModelLoader.loaded e)
    && ModelLoader.truthy_prop (ModelLoader.total e) = false \/
  exists l t : nat,
    ModelLoader.loaded e = Some (of_nat l) /\
    ModelLoader.total e = Some (of_nat t) /\
    0 < l <= t /\ (Z.of_nat t < 2 ^ 53)%Z.

(* ===================================================================== *)
(** * src/hooks/useBackgroundRemoval.ts *)
(* ===================================================================== *)

Module Hook.

Import ImageFile.

Inductive ProcessingStatus : Type :=
  | Idle | Validating | LoadingModel | Preprocessing | Processing
  | Complete | Error.

Record BackgroundRemovalState : Type := {
  status : ProcessingStatus;
  error : option string;
  modelProgress : number;
  processingProgress : number;
  stageMessage : string;
  originalFile : option File;
  originalPreview : option string;
  result : option Pipeline.RemoveBackgroundResult;
  resultPreview : option string;
  processingTime : option number
}.

Definition initialState : BackgroundRemovalState :=
  {| status := Idle; error := None; modelProgress := zero;
     processingProgress := zero; stageMessage := "";
     originalFile := None; originalPreview := None; result := None;
     resultPreview := None; processingTime := None |}.

(** The hook: its React state and the [isProcessingRef] flag. *)
Record HookState : Type := {
  state : BackgroundRemovalState;
  isProcessingRef : bool
}.

Definition initialHook : HookState :=
  {| state := initialState; isProcessingRef := false |}.

(** [reset] *)
Definition reset (h : HookState) : HookState :=
  {| state := initialState; isProcessingRef := false |}.

(** [handleModelProgress] *)
Definition handleModelProgress (progress : ModelLoader.ProgressInfo)
    (s : BackgroundRemovalState) : BackgroundRemovalState :=
  {| status := status s; error := error s;
     modelProgress := default zero (ModelLoader.progress progress);
     processingProgress := processingProgress s;
     stageMessage :=
       match ModelLoader.status progress with
       | ModelLoader.Download =>
           "Downloading model: "
           +:+ default "model files" (ModelLoader.file progress) +:+ "..."
       | ModelLoader.Ready => "Model ready"
       | _ => "Loading model..."
       end;
     originalFile := originalFile s; originalPreview := originalPreview s;
     result := result s; resultPreview := resultPreview s;
     processingTime := processingTime s |}.

(** [statusMap] *)
Definition statusMap (stage : Pipeline.ProcessingStage) : ProcessingStatus :=
  match stage with
  | Pipeline.StageLoadingModel => LoadingModel
  | Pipeline.StagePreprocessing => Preprocessing
  | Pipeline.StageInference => Processing
  | Pipeline.StagePostprocessing => Processing
  | Pipeline.StageComplete => Complete
  end.

(** The stage as a string, for [message ?? stage]. *)
Definition stage_name (stage : Pipeline.ProcessingStage) : string :=
  match stage with
  | Pipeline.StageLoadingModel => "loading-model"
  | Pipeline.StagePreprocessing => "preprocessing"
  | Pipeline.StageInference => "inference"
  | Pipeline.StagePostprocessing => "postprocessing"
  | Pipeline.StageComplete => "complete"
  end.

(** [handleProcessingProgress] *)
Definition handleProcessingProgress (stage : Pipeline.ProcessingStage)
    (progress : number) (message : option string)
    (s : BackgroundRemovalState) : BackgroundRemovalState :=
  {| status := statusMap stage; error := error s;
     modelProgress := modelProgress s;
     processingProgress := progress;
     stageMessage := default (stage_name stage) message;
     originalFile := originalFile s; originalPreview := originalPreview s;
     result := result s; resultPreview := resultPreview s;
     processingTime := processingTime s |}.

(** The update of the [catch] block. *)
Definition failed (errorMessage : string) (s : BackgroundRemovalState)
    : BackgroundRemovalState :=
  {| status := Error; error := Some errorMessage;
     modelProgress := modelProgress s;
     processingProgress := processingProgress s;
     stageMessage := "Error";
     originalFile := originalFile s; originalPreview := originalPreview s;
     result := result s; resultPreview := resultPreview s;
     processingTime := processingTime s |}.

(** [processImage] from its start to its [await] on [removeBackground]
    ([true]), or to its end when it returns or fails before ([false]).
    [objectUrl] is what [URL.createObjectURL(file)] gives. *)
Definition processImage_begin (objectUrl : string) (file : File)
    (h : HookState) : HookState * bool :=
  if isProcessingRef h then (h, false)
  else
    let s := state h in
    let validating :=
      {| status := Validating; error := None; modelProgress := zero;
         processingProgress := zero; stageMessage := "Validating file...";
         originalFile := Some file; originalPreview := originalPreview s;
         result := None; resultPreview := None; processingTime := None |} in
    let validation := validateImageFile file in
    if negb (valid validation) then
      ({| state := failed (default "Invalid file" (ImageFile.error validation))
                     validating;
          isProcessingRef := false |}, false)
    else
      ({| state :=
            {| status := LoadingModel; error := None; modelProgress := zero;
               processingProgress := zero;
               stageMessage := "Loading AI model...";
               originalFile := Some file; originalPreview := Some objectUrl;
               result := None; resultPreview := None;
               processingTime := None |};
          isProcessingRef := true |}, true).

(** [processImage] after its [await]: the final update or the [catch], and
    the [finally].  [preview] is what [canvasToDataURL(result.canvas)]
    gives. *)
Definition processImage_end (preview : string)
    (r : outcome Pipeline.RemoveBackgroundResult) (h : HookState) : HookState :=
  let s := state h in
  match r with
  | Resolved res =>
      {| state :=
           {| status := Complete; error := error s;
              modelProgress := modelProgress s;
              processingProgress := n100;
              stageMessage := "Complete";
              originalFile := originalFile s;
              originalPreview := originalPreview s;
              result := Some res; resultPreview := Some preview;
              processingTime := Some (Pipeline.processingTime res) |};
         isProcessingRef := false |}
  | Rejected errorMessage =>
      {| state := failed errorMessage s; isProcessingRef := false |}
  end.

(** What can happen to the hook, one step at a time. *)
Inductive Action : Type :=
  | Call (objectUrl : string) (file : File)     (* [processImage(file)] *)
  | StageCallback (ev : Pipeline.StageEvent)    (* [onProgress] of the run *)
  | ModelCallback (p : ModelLoader.ProgressInfo)
                                                (* [onModelProgress] *)
  | Settle (preview : string) (r : outcome Pipeline.RemoveBackgroundResult)
                                                (* the awaited promise settles *)
  | Reset.                                      (* [reset()] *)

Definition step (h : HookState) (a : Action) : HookState :=
  match a with
  | Call objectUrl file => fst (processImage_begin objectUrl file h)
  | StageCallback ev =>
      {| state := handleProcessingProgress (Pipeline.stage ev)
                    (Pipeline.percent ev) (Some (Pipeline.message ev)) (state h);
         isProcessingRef := isProcessingRef h |}
  | ModelCallback p =>
      {| state := handleModelProgress p (state h);
         isProcessingRef := isProcessingRef h |}
  | Settle preview r => processImage_end preview r h
  | Reset => reset h
  end.

Definition exec (h : HookState) (actions : list Action) : HookState :=
  foldl step h actions.


(** [name.replace(/\.[^/.]+$/, '')]: the first position from the left at
    which a dot is followed, up to the end, by one or more characters that
    are neither a dot nor a slash; the name is cut there. *)
Module Chars.
Import Stdlib.Strings.Ascii.
Local Open Scope char_scope.
Definition dot : ascii := ".".
Definition slash : ascii := "/".
End Chars.

Fixpoint no_dot_or_slash (s : string) : bool :=
  match s with
  | EmptyString => true
  | String c rest =>
      negb (Ascii.eqb c Chars.dot) && negb (Ascii.eqb c Chars.slash)
      && no_dot_or_slash rest
  end.

Fixpoint strip_extension (name : string) : string :=
  match name with
  | EmptyString => EmptyString
  | String c rest =>
      if Ascii.eqb c Chars.dot
         && negb (String.eqb rest EmptyString) && no_dot_or_slash rest
      then EmptyString
      else String c (strip_extension rest)
  end.

(** The name [downloadResult] saves under; [None] when there is no result
    and nothing is downloaded. *)
Definition download_filename (filename : option string)
    (s : BackgroundRemovalState) : option string :=
  match result s with
  | None => None
  | Some _ =>
      let defaultFilename :=
        match originalFile s with
        | Some file => strip_extension (file_name file) +:+ "-no-bg.png"
        | None => "removed-background.png"
        end in
      Some (default defaultFilename filename)
  end.

End Hook.

(* ===================================================================== *)
(** * src/components/ProgressIndicator.tsx, src/components/ImageProcessor.tsx *)
(* ===================================================================== *)

Module Components.

Import Hook.

(** The literal [0.35]. *)
Definition n035 : number := div (of_Z 35) (of_Z 100).

(** [getOverallProgress] *)
Definition getOverallProgress (status : ProcessingStatus)
    (modelProgress processingProgress : number) : number :=
  match status with
  | Idle => of_Z 0
  | Validating => of_Z 5
  | LoadingModel => math_round (mul modelProgress half)
  | Preprocessing => of_Z 55
  | Processing => add (of_Z 60) (math_round (mul processingProgress n035))
  | Complete => of_Z 100
  | Error => of_Z 0
  end.



End Components.

(** Vocabulary of the properties of the hook and of the components. *)

Definition is_callback (a : Hook.Action) : bool :=
  match a with
  | Hook.StageCallback _ | Hook.ModelCallback _ => true
  | _ => false
  end.

Definition is_call_or_callback (a : Hook.Action) : bool :=
  match a with
  | Hook.Call _ _ | Hook.StageCallback _ | Hook.ModelCallback _ => true
  | _ => false
  end.

(** A JPEG of 1 MB. *)
Definition holiday_jpg : ImageFile.File :=
  {| ImageFile.file_name := "holiday.2024.jpg";
     ImageFile.file_type := "image/jpeg";
     ImageFile.file_size := 1048576%N |}.

(** A PDF. *)
Definition notes_pdf : ImageFile.File :=
  {| ImageFile.file_name := "notes.pdf";
     ImageFile.file_type := "application/pdf";
     ImageFile.file_size := 2048%N |}.

(** Structural equality of two numbers. *)
Definition number_same (a b : number) : bool :=
  match a, b with
  | S754_zero s, S754_zero s' => Bool.eqb s s'
  | S754_infinity s, S754_infinity s' => Bool.eqb s s'
  | S754_nan, S754_nan => true
  | S754_finite s m e, S754_finite s' m' e' =>
      Bool.eqb s s' && Pos.eqb m m' && Z.eqb e e'
  | _, _ => false
  end.

(** The bar of the loading stage at [m] percent is [(m + 1) / 2]. *)
Definition loading_bar_ok (m : nat) : bool :=
  number_same
    (Components.getOverallProgress Hook.LoadingModel (of_Z (Z.of_nat m)) zero)
    (of_Z ((Z.of_nat m + 1) / 2)).

(** The integer the bar shows in the processing stage, if it is one. *)
Definition processing_bar (p : nat) : option Z :=
  trunc (Components.getOverallProgress Hook.Processing zero
           (of_Z (Z.of_nat p))).

(** 60 plus 0.35 times [p] rounded half up in exact arithmetic, but for 90
    percent, where the product of the doubles is just below 31.5. *)
Definition processing_bar_value (p : nat) : Z :=
  if (p =? 90)%nat then 91%Z
  else (60 + (35 * Z.of_nat p + 50) / 100)%Z.

(** The bars of the processing stage at [p] and at [q] percent are the
    integers [v <= w] of [processing_bar_value], within 60..95. *)
Definition processing_bars_ok (p q : nat) : bool :=
  match processing_bar p, processing_bar q with
  | Some v, Some w =>
      number_same
        (Components.getOverallProgress Hook.Processing zero
           (of_Z (Z.of_nat p))) (of_Z v)
      && number_same
           (Components.getOverallProgress Hook.Processing zero
              (of_Z (Z.of_nat q))) (of_Z w)
      && (60 <=? v)%Z && (v <=? w)%Z && (w <=? 95)%Z
      && (v =? processing_bar_value p)%Z
      && (w =? processing_bar_value q)%Z
  | _, _ => false
  end.

(* ===================================================================== *)
(** * Properties *)
(* ===================================================================== *)

(** ** Loops that fill an array *)

Section ForLoop.

Context {St : Type}.
Implicit Types (body : nat -> St -> St) (s : St).

Lemma for_loop_0 body s : for_loop 0 body s = s.
Proof. reflexivity. Qed.

Lemma for_loop_S n body s :
  for_loop (S n) body s = body n (for_loop n body s).
Proof. unfold for_loop. rewrite seq_S, foldl_app. reflexivity. Qed.

(** The invariant rule for the counting loop. *)
Lemma for_loop_invariant (P : nat -> St -> Prop) n body s :
  P 0 s ->
  (forall i t, i < n -> P i t -> P (S i) (body i t)) ->
  P n (for_loop n body s).
Proof.
  intros H0 Hstep. induction n as [|n IH].
  - exact H0.
  - rewrite for_loop_S. apply Hstep; [lia|]. apply IH.
    intros i t Hi. apply Hstep. lia.
Qed.

End ForLoop.

Section WriteLoop.

Context {A : Type}.
Variables (idx : nat -> nat) (val : nat -> A).

Lemma write_loop_length n a : length (write_loop idx val n a) = length a.
Proof.
  unfold write_loop.
  apply (for_loop_invariant (fun _ t => length t = length a)); [done|].
  intros i t _ Ht. by rewrite length_insert.
Qed.

(** An index no round stores to keeps its element. *)
Lemma write_loop_untouched n a k :
  (forall i, i < n -> idx i <> k) ->
  write_loop idx val n a !! k = a !! k.
Proof.
  intros Hk. unfold write_loop.
  induction n as [|n IH]; [done|].
  rewrite for_loop_S, list_lookup_insert_ne by (apply Hk; lia).
  apply IH. intros i Hi. apply Hk. lia.
Qed.

(** When the rounds store to distinct indices, each stored value is there
    at the end. *)
Lemma write_loop_lookup n a i :
  (forall j j', j < n -> j' < n -> idx j = idx j' -> j = j') ->
  i < n -> idx i < length a ->
  write_loop idx val n a !! idx i = Some (val i).
Proof.
  intros Hinj. revert i. induction n as [|n IH]; intros i Hi Hlen; [lia|].
  unfold write_loop. rewrite for_loop_S. fold (write_loop idx val n a).
  destruct (decide (i = n)) as [->|Hne].
  - apply list_lookup_insert_eq. by rewrite write_loop_length.
  - rewrite list_lookup_insert_ne.
    + apply IH; [|lia|done]. intros j j' Hj Hj'. apply Hinj; lia.
    + intros Heq. apply Hne. symmetry. apply Hinj; [lia|lia|done].
Qed.

End WriteLoop.

Section GridLoop.

Context {A : Type}.
Variable val : nat -> nat -> A.

Lemma grid_loop_length w h a : length (grid_loop val w h a) = length a.
Proof.
  unfold grid_loop.
  apply (for_loop_invariant (fun _ t => length t = length a)); [done|].
  intros y t _ Ht.
  rewrite <- Ht. apply (write_loop_length (fun x => y * w + x) (fun x => val x y)).
Qed.

Lemma grid_loop_lookup w h a x y :
  x < w -> y < h -> length a = w * h ->
  grid_loop val w h a !! (y * w + x) = Some (val x y).
Proof.
  intros Hx Hy Hlen. unfold grid_loop.
  cut (forall n, n <= h ->
         let t := for_loop n (fun y a =>
                    for_loop w (fun x a => <[ y * w + x := val x y ]> a) a) a in
         length t = length a /\
         forall y' x', y' < n -> x' < w ->
           t !! (y' * w + x') = Some (val x' y')).
  { intros Hcut. destruct (Hcut h (le_n h)) as [_ Hall]. by apply Hall. }
  induction n as [|n IH]; intros Hn; simpl.
  - split; [done|]. intros; lia.
  - destruct IH as [IHlen IHall]; [lia|].
    rewrite for_loop_S.
    set (t := for_loop n _ a) in *.
    change (for_loop w (fun x a => <[ n * w + x := val x n ]> a) t)
      with (write_loop (fun x => n * w + x) (fun x => val x n) w t).
    split; [by rewrite write_loop_length|].
    intros y' x' Hy' Hx'.
    destruct (decide (y' = n)) as [->|Hne].
    + apply (write_loop_lookup (fun x => n * w + x) (fun x => val x n));
        [intros; lia|done|].
      rewrite IHlen, Hlen. nia.
    + rewrite write_loop_untouched by (intros; nia).
      apply IHall; [lia|done].
Qed.

End GridLoop.

(** ** The resampling functions as grid loops *)

Lemma resizeMask_grid data srcWidth srcHeight dstWidth dstHeight :
  resizeMask data srcWidth srcHeight dstWidth dstHeight =
  grid_loop (resizeMask_sample data srcWidth srcHeight dstWidth dstHeight)
    dstWidth dstHeight (alloc (dstWidth * dstHeight)).
Proof. reflexivity. Qed.

Lemma resizeMaskFromImageData_grid data srcWidth srcHeight dstWidth dstHeight :
  resizeMaskFromImageData data srcWidth srcHeight dstWidth dstHeight =
  grid_loop (resizeImageData_sample data srcWidth srcHeight dstWidth dstHeight)
    dstWidth dstHeight (alloc (dstWidth * dstHeight)).
Proof. reflexivity. Qed.

Lemma alloc_length n : length (alloc n) = n.
Proof. apply length_replicate. Qed.

Lemma fill_alloc n v : fill (alloc n) v = replicate n (v mod 256)%Z.
Proof. unfold fill. by rewrite alloc_length. Qed.

Lemma resizeMask_length data sw sh dw dh :
  length (resizeMask data sw sh dw dh) = dw * dh.
Proof. by rewrite resizeMask_grid, grid_loop_length, alloc_length. Qed.

Lemma resizeMaskFromImageData_length data sw sh dw dh :
  length (resizeMaskFromImageData data sw sh dw dh) = dw * dh.
Proof. by rewrite resizeMaskFromImageData_grid, grid_loop_length, alloc_length. Qed.

(** A loop that stores one converted value per round keeps the length. *)
Lemma store_loop_length n (val : nat -> option number) a :
  length (for_loop n (fun i a => write a i (val i)) a) = length a.
Proof. apply (write_loop_length (fun i => i) (fun i => to_uint8 (default NaN (val i)))). Qed.

Lemma store_loop_lookup n (val : nat -> option number) a i :
  i < n -> i < length a ->
  for_loop n (fun i a => write a i (val i)) a !! i
  = Some (to_uint8 (default NaN (val i))).
Proof.
  intros Hi Hlen.
  apply (write_loop_lookup (fun i => i) (fun i => to_uint8 (default NaN (val i))));
    auto.
Qed.

Lemma store_loop_beyond n (val : nat -> option number) a k :
  n <= k ->
  for_loop n (fun i a => write a i (val i)) a !! k = a !! k.
Proof.
  intros Hk.
  apply (write_loop_untouched (fun i => i) (fun i => to_uint8 (default NaN (val i)))).
  intros; lia.
Qed.

Lemma extractMaskFromImage_length env url w h buf :
  extractMaskFromImage env url w h = Resolved buf -> length buf = w * h.
Proof.
  unfold extractMaskFromImage.
  destruct (image_loads env url); [|done].
  destruct (canvas_context env); [|done].
  intros [= <-]. by rewrite store_loop_length, alloc_length.
Qed.

(** ** The opacity buffer has the target size whenever one is returned *)

Lemma sized_fill n v : sized n (Resolved (fill (alloc n) v)).
Proof. intros buf [= <-]. by rewrite fill_alloc, length_replicate. Qed.

Lemma sized_store_loop n k val :
  sized n (Resolved (for_loop k (fun i a => write a i (val i)) (alloc n))).
Proof. intros buf [= <-]. by rewrite store_loop_length, alloc_length. Qed.

Lemma via_toCanvas_sized mask w h r :
  via_toCanvas mask w h (alloc (w * h)) = Some r -> sized (w * h) r.
Proof.
  unfold via_toCanvas.
  destruct (mask_toCanvas mask) as [[| |cw ch px]|]; try done.
  destruct (_ || _); intros [= <-].
  - intros buf [= <-]. apply resizeMaskFromImageData_length.
  - apply sized_store_loop.
Qed.

Lemma via_data_sized mask w h r :
  via_data mask w h (alloc (w * h)) = Some r -> sized (w * h) r.
Proof.
  unfold via_data.
  destruct (mask_data mask) as [data|]; [|done].
  cbv zeta. destruct (_ || _); intros [= <-].
  - intros buf [= <-]. apply resizeMask_length.
  - apply (sized_store_loop (w * h) (w * h)
             (fun i => Some (normalize_value (nullish_or (at_nat data i) zero)))).
Qed.

Lemma via_toDataURL_sized env mask w h r :
  via_toDataURL env mask w h = Some r -> sized (w * h) r.
Proof.
  unfold via_toDataURL.
  destruct (mask_toDataURL mask) as [[url|]|]; try done.
  intros [= <-] buf. apply extractMaskFromImage_length.
Qed.

Lemma via_score_sized score n r :
  via_score score (alloc n) = Some r -> sized n r.
Proof.
  unfold via_score. destruct score; [|done].
  intros [= <-]. apply sized_fill.
Qed.

Lemma or_else_Some {A} (a b : option A) r :
  or_else a b = Some r -> a = Some r \/ (a = None /\ b = Some r).
Proof. destruct a; simpl; intros; simplify_eq; auto. Qed.

Lemma via_segments_sized env result w h r :
  via_segments env result w h (alloc (w * h)) = Some r -> sized (w * h) r.
Proof.
  unfold via_segments.
  destruct result as [|[|[|mask score] rest]|]; try done.
  - intros [= <-]. apply sized_fill.
  - intros [H|[_ H]]%or_else_Some; [|by eapply via_score_sized].
    destruct mask as [mask|]; [|done].
    apply or_else_Some in H as [H|[_ H]]; [by eapply via_toCanvas_sized|].
    apply or_else_Some in H as [H|[_ H]]; [by eapply via_data_sized|].
    by eapply via_toDataURL_sized.
Qed.

Lemma via_result_data_sized result w h r :
  via_result_data result w h (alloc (w * h)) = Some r -> sized (w * h) r.
Proof.
  unfold via_result_data. destruct (result_data result) as [data|]; [|done].
  intros [= <-].
  apply (sized_store_loop (w * h) _
           (fun i => Some (normalize_value (nullish_or (at_nat data i) zero)))).
Qed.

(** ** The opacity buffer has the target size whenever one is returned *)

Lemma extractMaskData_length env result width height buf :
  extractMaskData env result width height = Resolved buf ->
  length buf = width * height.
Proof.
  unfold extractMaskData.
  assert (Hfall : sized (width * height)
            (Resolved (fill (alloc (width * height)) 255))) by apply sized_fill.
  assert (Hrest : forall r,
            or_else (via_segments env result width height (alloc (width * height)))
              (via_result_data result width height (alloc (width * height)))
            = Some r -> sized (width * height) r).
  { intros r [H|[_ H]]%or_else_Some;
      eauto using via_segments_sized, via_result_data_sized. }
  destruct result; [apply Hfall| |];
    (destruct (or_else _ _) as [r|]; [by apply Hrest|apply Hfall]).
Qed.

(** [extractMaskData] rejects only where it hands back the promise of
    [extractMaskFromImage]: the first segment's mask has no usable
    [toCanvas] or [data], its [toDataURL] gave a URL, and then the image did
    not load or no 2D context was to be had. *)
Lemma extractMaskData_rejects_only_in_toDataURL env result width height e :
  extractMaskData env result width height = Rejected e ->
  exists mask score rest url,
    result = ResArray (SegObject (Some mask) score :: rest) /\
    mask_toDataURL mask = Some (Resolved url) /\
    extractMaskFromImage env url width height = Rejected e.
Proof.
  unfold extractMaskData.
  destruct result as [|segs|data]; [done| |].
  - destruct segs as [|[|[mask|] score] rest]; simpl.
    + done.
    + done.
    + unfold via_toCanvas, via_data, via_toDataURL, via_score.
      destruct (mask_toCanvas mask) as [[| |cw ch px]|] eqn:Hc; simpl;
        try (destruct (_ || _); done);
        (destruct (mask_data mask) as [d|] eqn:Hd; simpl;
          [destruct (_ || _); done|]);
        (destruct (mask_toDataURL mask) as [[url|m]|] eqn:Hu; simpl;
          [intros He; exists mask, score, rest, url; by rewrite He
          |destruct score; done
          |destruct score; done]).
    + unfold via_score. destruct score; done.
  - simpl. unfold via_result_data. simpl. destruct data; done.
Qed.

(** ** Claims about [extractMaskData] *)

(** C7.  For any target size, [extractMaskData] applied to a null or
    undefined result, to an empty array, to an array whose first segment is
    itself null, undefined or otherwise falsy (the "empty segment" of the
    code), and to an array whose first segment is an object with neither a
    mask nor a numeric score (such as [{}]), resolves with a buffer of
    [width * height] entries that are all 255, whatever segments follow the
    first. *)
Theorem opaque_fallback (env : Browser) (width height : nat) (rest : list Segment) :
  extractMaskData env ResFalsy width height
    = Resolved (replicate (width * height) 255%Z) /\
  extractMaskData env (ResArray []) width height
    = Resolved (replicate (width * height) 255%Z) /\
  extractMaskData env (ResArray (SegFalsy :: rest)) width height
    = Resolved (replicate (width * height) 255%Z) /\
  extractMaskData env (ResArray (SegObject None None :: rest)) width height
    = Resolved (replicate (width * height) 255%Z).
Proof.
  unfold extractMaskData; simpl. by rewrite fill_alloc.
Qed.

(** C1.  The claim fails where a mask only offers [toDataURL] and the image
    made from its URL does not load: [extractMaskData] then settles as the
    promise of [extractMaskFromImage] does, rejected with "Failed to load
    mask image", although the segment carries a score the cascade would
    fall back to.  When [toDataURL] itself fails, the [catch] does take
    effect and the score fallback is reached. *)
Theorem extractMaskData_rejects_on_mask_image_failure :
  extractMaskData offline_browser
    (ResArray [SegObject (Some (url_mask "blob:mask")) (Some one)]) 2 2
    = Rejected "Failed to load mask image" /\
  extractMaskData offline_browser
    (ResArray [SegObject (Some broken_url_mask) (Some one)]) 2 2
    = Resolved [255; 255; 255; 255]%Z.
Proof. split; reflexivity. Qed.

(** C2, as stated, fails: the code samples column
    [floor(x * (srcW / dstW))] with the ratio rounded to a Number first,
    which can be one less than [floor(x * srcW / dstW)].  For a row of 30
    samples resampled to 22, target column 11 takes source column 14
    (30 / 22 rounds down, and 11 times it is just below 15), where the
    formula of the claim names column 15, in exact arithmetic as well as
    evaluated from left to right in Numbers; so the buffer
    [extractMaskData] resolves with is not the resampled buffer of the
    claim. *)
Lemma resample_not_exact_quotient :
  nearest 11 (of_nat 30) 22 = of_Z 14 /\
  spec_nearest 11 30 22 = 15 /\
  spec_nearest_number 11 30 22 = of_Z 15 /\
  extractMaskData offline_browser
    (ResArray [SegObject
       (Some (raw_mask (ramp 30) (Some (of_nat 30)) (Some (of_nat 1)))) None])
    22 1
  = Resolved (resizeMask (ramp 30) (of_nat 30) (of_nat 1) 22 1) /\
  resizeMask (ramp 30) (of_nat 30) (of_nat 1) 22 1 !! 11 = Some 14%Z /\
  spec_resizeMask_sample (ramp 30) 30 1 22 1 11 0 = 15%Z /\
  ~ spec_resampled (ramp 30) 30 1 22 1
      (resizeMask (ramp 30) (of_nat 30) (of_nat 1) 22 1).
Proof.
  assert (E : resizeMask (ramp 30) (of_nat 30) (of_nat 1) 22 1 !! 11
              = Some 14%Z) by (vm_compute; reflexivity).
  assert (F : spec_resizeMask_sample (ramp 30) 30 1 22 1 11 0 = 15%Z)
    by (vm_compute; reflexivity).
  split; [vm_compute; reflexivity|].
  split; [vm_compute; reflexivity|].
  split; [vm_compute; reflexivity|].
  split; [vm_compute; reflexivity|].
  split; [exact E|]. split; [exact F|].
  intros Hspec. specialize (Hspec 11 0 ltac:(lia) ltac:(lia)).
  change (0 * 22 + 11) with 11 in Hspec. rewrite E, F in Hspec.
  discriminate.
Qed.

(** C2, amended.  When the declared size of a raw mask buffer, or the size
    of the canvas a mask renders to, differs from the target, the opacity
    buffer is the resampled one: the entry for target pixel [(x, y)] is the
    source sample at column [floor(x * (srcW / dstW))] and row
    [floor(y * (srcH / dstH))], the two ratios and products being the
    Numbers the code computes.  For a raw buffer the sample [v] (0 when it
    is missing, zero or NaN) is normalised, [Math.round(v * 255)] when
    [v <= 1] and [Math.round(v)] otherwise, and stored as a byte; for a
    canvas the red channel is taken as it is.  The buffer is [resizeMask]
    (or [resizeMaskFromImageData]) of the mask data and the sizes alone.  A
    2x2 mask [0, 255, 255, 0] resampled to 4x4 gives sixteen values, each
    one of the four source values, and a 2x2 mask [0, 0.5, 1, 2] gives
    blocks of 0, 128, 255 and 2. *)
Theorem resample_nearest_neighbour
    (env : Browser) (score : option number) (rest : list Segment)
    (width height : nat)
    (data : arraylike) (srcW srcH : number)
    (pixels : u8array) (cw ch : number) :
  truthy srcW = true -> truthy srcH = true ->
  dims_differ srcW srcH width height = true ->
  dims_differ cw ch width height = true ->
  (let buf := resizeMask data srcW srcH width height in
   extractMaskData env
     (ResArray (SegObject (Some (raw_mask data (Some srcW) (Some srcH))) score
                :: rest)) width height = Resolved buf /\
   forall x y, x < width -> y < height ->
     buf !! (y * width + x)
     = Some (to_uint8
         (let value :=
            falsy_or
              (at_number data
                 (source_index (nearest x srcW width) (nearest y srcH height)
                    srcW))
              zero in
          if leb value one then math_round (mul value n255)
          else math_round value))) /\
  (let buf := resizeMaskFromImageData pixels cw ch width height in
   extractMaskData env
     (ResArray (SegObject (Some (canvas_mask cw ch pixels)) score :: rest))
     width height = Resolved buf /\
   forall x y, x < width -> y < height ->
     buf !! (y * width + x)
     = Some (to_uint8
         (falsy_or
            (read_number pixels
               (mul (source_index (nearest x cw width) (nearest y ch height) cw)
                    (of_Z 4)))
            zero))) /\
  (resizeMask [Some zero; Some n255; Some n255; Some zero] two two 4 4
     = [0; 0; 255; 255;  0; 0; 255; 255;  255; 255; 0; 0;  255; 255; 0; 0]%Z /\
   resizeMaskFromImageData
     [0; 0; 0; 255;  255; 255; 255; 255;  255; 255; 255; 255;  0; 0; 0; 255]%Z
     two two 4 4
     = [0; 0; 255; 255;  0; 0; 255; 255;  255; 255; 0; 0;  255; 255; 0; 0]%Z /\
   Forall (fun v => v ∈ [0; 255; 255; 0]%Z)
     (resizeMask [Some zero; Some n255; Some n255; Some zero] two two 4 4) /\
   resizeMask [Some zero; Some half; Some one; Some two] two two 4 4
     = [0; 0; 128; 128;  0; 0; 128; 128;  255; 255; 2; 2;  255; 255; 2; 2]%Z).
Proof.
  intros HsW HsH Hraw Hcanvas. split; [|split].
  - split.
    + unfold extractMaskData, via_segments, or_else; simpl.
      unfold via_data; simpl. rewrite HsW, HsH.
      unfold dims_differ in Hraw. by rewrite Hraw.
    + intros x y Hx Hy. rewrite resizeMask_grid.
      apply (grid_loop_lookup (resizeMask_sample data srcW srcH width height));
        [done|done|apply alloc_length].
  - split.
    + unfold extractMaskData, via_segments, or_else; simpl.
      unfold via_toCanvas; simpl.
      unfold dims_differ in Hcanvas. by rewrite Hcanvas.
    + intros x y Hx Hy. rewrite resizeMaskFromImageData_grid.
      apply (grid_loop_lookup (resizeImageData_sample pixels cw ch width height));
        [done|done|apply alloc_length].
  - split; [|split; [|split]]; [vm_compute; reflexivity ..| |vm_compute; reflexivity].
    assert (E : resizeMask [Some zero; Some n255; Some n255; Some zero] two two 4 4
                = [0; 0; 255; 255;  0; 0; 255; 255;  255; 255; 0; 0;  255; 255; 0; 0]%Z)
      by (vm_compute; reflexivity).
    rewrite E. repeat constructor.
Qed.

(** ** Facts about Numbers *)

Section NumberFacts.

Local Open Scope Z_scope.

Lemma digits2_pos_iter_xO (p k : positive) :
  digits2_pos (Pos.iter xO p k) = (digits2_pos p + k)%positive.
Proof.
  induction k as [|k IH] using Pos.peano_ind.
  - simpl. by rewrite Pos.add_1_r.
  - rewrite Pos.iter_succ. simpl. rewrite IH. by rewrite Pos.add_succ_r.
Qed.

Lemma Zpos_iter_xO (p k : positive) :
  Zpos (Pos.iter xO p k) = Zpos p * 2 ^ Zpos k.
Proof.
  induction k as [|k IH] using Pos.peano_ind.
  - simpl. lia.
  - rewrite Pos.iter_succ, Pos2Z.inj_xO, IH, Pos2Z.inj_succ, Z.pow_succ_r by lia.
    ring.
Qed.

(** A positive number of [d] binary digits lies in [2^(d-1), 2^d). *)
Lemma digits2_pos_bounds (p : positive) :
  2 ^ (Zpos (digits2_pos p) - 1) <= Zpos p < 2 ^ Zpos (digits2_pos p).
Proof.
  induction p as [p IH|p IH|]; simpl digits2_pos.
  - rewrite Pos2Z.inj_succ, Z.pow_succ_r by lia.
    replace (Z.succ (Zpos (digits2_pos p)) - 1) with (Z.succ (Zpos (digits2_pos p) - 1)) by lia.
    rewrite Z.pow_succ_r by lia. lia.
  - rewrite Pos2Z.inj_succ, Z.pow_succ_r by lia.
    replace (Z.succ (Zpos (digits2_pos p)) - 1) with (Z.succ (Zpos (digits2_pos p) - 1)) by lia.
    rewrite Z.pow_succ_r by lia. lia.
  - simpl. lia.
Qed.

Lemma digits2_pos_le (p : positive) (n : Z) :
  0 <= n -> Zpos p < 2 ^ n -> Zpos (digits2_pos p) <= n.
Proof.
  intros Hn Hp. destruct (digits2_pos_bounds p) as [Hlo _].
  destruct (Z_le_gt_dec (Zpos (digits2_pos p)) n) as [|Hgt]; [done|].
  assert (2 ^ n <= 2 ^ (Zpos (digits2_pos p) - 1)) by (apply Z.pow_le_mono_r; lia).
  lia.
Qed.

(** Rounding a mantissa of exactly 53 digits that is marked exact leaves it
    as it is. *)
Lemma binary_round_aux_exact (s : bool) (m : positive) (e : Z) :
  Zpos (digits2_pos m) = 53 -> -1074 <= e <= 971 ->
  binary_round_aux prec emax s (Zpos m) e loc_Exact = S754_finite s m e.
Proof.
  intros Hd He.
  assert (Hshift : shr_fexp prec emax (Zpos m) e loc_Exact
                   = (Build_shr_record (Zpos m) false false, e)).
  { unfold shr_fexp, Zdigits2. rewrite Hd.
    replace (fexp prec emax (53 + e) - e) with 0; [reflexivity|].
    unfold fexp, emin, prec, emax. lia. }
  unfold binary_round_aux. rewrite Hshift. cbn [shr_m loc_of_shr_record round_nearest_even].
  rewrite Hshift. cbn [shr_m].
  replace (e <=? emax - prec) with true; [done|].
  symmetry. apply Z.leb_le. unfold emax, prec. lia.
Qed.

(** The Number made from an integer of at most 53 digits: the integer
    shifted up to 53 digits, with the exponent that undoes the shift. *)
Lemma binary_round_small (s : bool) (p : positive) :
  Zpos (digits2_pos p) <= 53 ->
  exists m e,
    binary_round prec emax s p 0 = S754_finite s m e /\
    -52 <= e <= 0 /\
    Zpos m = Zpos p * 2 ^ (- e) /\
    Zpos (digits2_pos m) = 53 /\
    e = Zpos (digits2_pos p) - 53.
Proof.
  intros Hd. unfold binary_round.
  replace (fexp prec emax (Zpos (digits2_pos p) + 0)) with (Zpos (digits2_pos p) - 53)
    by (unfold fexp, emin, prec, emax; lia).
  unfold shl_align.
  destruct (Zpos (digits2_pos p) - 53 - 0) as [|k|k] eqn:Hk; [|lia|].
  - exists p, 0. rewrite binary_round_aux_exact by lia.
    repeat split; try lia.
  - assert (Hdig : Zpos (digits2_pos (Pos.iter xO p k)) = 53).
    { rewrite digits2_pos_iter_xO, Pos2Z.inj_add. lia. }
    exists (Pos.iter xO p k), (Zpos (digits2_pos p) - 53).
    rewrite binary_round_aux_exact by lia.
    repeat split; try lia.
    rewrite Zpos_iter_xO. f_equal. f_equal. lia.
Qed.

(** Reading back the integer a Number was made from. *)
Lemma trunc_of_Z (z : Z) : Z.abs z < 2 ^ 53 -> trunc (of_Z z) = Some z.
Proof.
  intros Hz. unfold of_Z, binary_normalize.
  destruct z as [|p|p]; [reflexivity| |].
  - destruct (binary_round_small false p) as (m & e & -> & He & Hm & _).
    { apply digits2_pos_le; lia. }
    simpl. rewrite Hm, Z.shiftl_div_pow2 by lia.
    f_equal. apply Z.div_mul. apply Z.pow_nonzero; lia.
  - destruct (binary_round_small true p) as (m & e & -> & He & Hm & _).
    { apply digits2_pos_le; [lia|]. simpl in Hz. lia. }
    simpl. rewrite Hm, Z.shiftl_div_pow2 by lia.
    f_equal.
    rewrite Z.div_mul by (apply Z.pow_nonzero; lia). reflexivity.
Qed.

Lemma to_uint8_of_Z (z : Z) : Z.abs z < 2 ^ 53 -> to_uint8 (of_Z z) = z mod 256.
Proof. intros Hz. unfold to_uint8. by rewrite trunc_of_Z. Qed.

(** A valid binary64 mantissa has at most 53 digits. *)
Lemma valid_digits (s : bool) (m : positive) (e : Z) :
  valid_binary prec emax (S754_finite s m e) = true ->
  Zpos (digits2_pos m) <= 53.
Proof.
  unfold valid_binary, bounded, canonical_mantissa, fexp, emin, prec, emax.
  intros [H _]%andb_prop. apply Z.eqb_eq in H. lia.
Qed.

Lemma shiftl_neg_div (a e : Z) : e <= 0 -> Z.shiftl a e = a / 2 ^ (- e).
Proof.
  intros He. by apply Z.shiftl_div_pow2.
Qed.

Lemma Zround_scaled_bound (n e : Z) :
  e < 0 -> Z.abs n < 2 ^ 53 -> Z.abs (Zround_scaled n e) < 2 ^ 53.
Proof.
  intros He Hn. unfold Zround_scaled.
  destruct (Z.leb_spec 0 e) as [|_]; [lia|].
  rewrite shiftl_neg_div by lia.
  assert (HP : 0 < 2 ^ (- e - 1)) by (apply Z.pow_pos_nonneg; lia).
  assert (H2 : 2 ^ (- e) = 2 * 2 ^ (- e - 1)).
  { rewrite <- Z.pow_succ_r by lia. f_equal. lia. }
  rewrite H2. set (P := 2 ^ (- e - 1)) in *.
  assert (Hup : (n + P) / (2 * P) < 2 ^ 53)
    by (apply Z.div_lt_upper_bound; nia).
  assert (Hlo : - (2 ^ 53 - 1) <= (n + P) / (2 * P))
    by (apply Z.div_le_lower_bound; nia).
  lia.
Qed.

(** The integer part of [Math.round(a)] is the exact rounding of [a]. *)
Lemma trunc_math_round (a : number) :
  valid_binary prec emax a = true -> trunc (math_round a) = round_int a.
Proof.
  destruct a as [s|s| |s m e]; try reflexivity.
  intros Hv%valid_digits. unfold math_round, round_int.
  destruct (Z.leb_spec 0 e) as [He|He].
  - unfold Zround_scaled. destruct (Z.leb_spec 0 e); [|lia].
    simpl. f_equal. unfold signed. destruct s; simpl; [|done].
    rewrite !Z.shiftl_mul_pow2 by lia. lia.
  - assert (Hb : Z.abs (Zround_scaled (signed s m) e) < 2 ^ 53).
    { apply Zround_scaled_bound; [done|].
      destruct (digits2_pos_bounds m) as [_ Hm].
      assert (2 ^ Zpos (digits2_pos m) <= 2 ^ 53) by (apply Z.pow_le_mono_r; lia).
      unfold signed. destruct s; simpl; lia. }
    cbv zeta.
    destruct (Z.eqb_spec (Zround_scaled (signed s m) e) 0) as [->|_]; [done|].
    by apply trunc_of_Z.
Qed.

(** A Number above 255 is not [<= 1]. *)
Lemma above_255_not_le_1 (v : number) :
  ltb n255 v = true -> leb v one = false.
Proof.
  assert (E255 : n255 = S754_finite false 8972014882652160 (-45))
    by (vm_compute; reflexivity).
  assert (E1 : one = S754_finite false 4503599627370496 (-52))
    by (vm_compute; reflexivity).
  rewrite E255, E1. unfold ltb, leb, SFltb, SFleb.
  destruct v as [s|s| |s m e]; cbn [SFcompare].
  - discriminate.
  - destruct s; [discriminate|reflexivity].
  - discriminate.
  - destruct s; [discriminate|].
    destruct (Z.compare_spec (-45) e) as [<-|Hlt|Hgt].
    + reflexivity.
    + destruct (Z.compare_spec e (-52)) as [->|?|?]; [lia|lia|reflexivity].
    + discriminate.
Qed.

Lemma above_255_positive (v : number) (r : Z) :
  ltb n255 v = true -> round_int v = Some r -> 0 <= r.
Proof.
  assert (E255 : n255 = S754_finite false 8972014882652160 (-45))
    by (vm_compute; reflexivity).
  rewrite E255. unfold ltb, SFltb.
  destruct v as [s|s| |s m e]; cbn [SFcompare round_int]; try discriminate.
  destruct s; [discriminate|]. intros _ [= <-].
  unfold Zround_scaled, signed; cbn [cond_Zopp].
  destruct (0 <=? e); apply Z.shiftl_nonneg; lia.
Qed.

(** The store of a Number above 255: its rounding, wrapped modulo 256. *)
Lemma to_uint8_normalize_above_255 (v : number) (r : Z) :
  valid_binary prec emax v = true ->
  ltb n255 v = true -> round_int v = Some r ->
  to_uint8 (normalize_value v) = r mod 256.
Proof.
  intros Hv H255 Hr. unfold normalize_value.
  rewrite (above_255_not_le_1 v H255).
  unfold to_uint8. by rewrite trunc_math_round, Hr.
Qed.

(** A byte read from a typed array and stored into another one is
    unchanged. *)
Lemma to_uint8_byte (z : Z) : is_u8 z -> to_uint8 (of_Z z) = z.
Proof.
  intros [Hlo Hhi]. rewrite to_uint8_of_Z by lia.
  apply Z.mod_small. lia.
Qed.

Lemma to_uint8_clamp_byte (z : Z) : is_u8 z -> to_uint8_clamp (of_Z z) = z.
Proof.
  intros [Hlo Hhi].
  assert (Hall : forallb (fun n => to_uint8_clamp (of_Z (Z.of_nat n)) =? Z.of_nat n)
                   (seq 0 256) = true) by (vm_compute; reflexivity).
  rewrite forallb_forall in Hall.
  specialize (Hall (Z.to_nat z)).
  rewrite Z2Nat.id in Hall by lia. apply Z.eqb_eq, Hall.
  apply in_seq. lia.
Qed.

End NumberFacts.

(** ** The value normalisation of raw buffers *)

(** The copy loop of the raw-buffer branch, entry by entry. *)
Lemma normalize_loop_lookup (data : arraylike) (n k i : nat) :
  i < k -> i < n ->
  for_loop k (fun i maskData =>
      write maskData i (Some (normalize_value (nullish_or (at_nat data i) zero))))
    (alloc n) !! i
  = Some (to_uint8 (normalize_value (nullish_or (at_nat data i) zero))).
Proof.
  intros Hk Hn.
  apply (store_loop_lookup k
           (fun i => Some (normalize_value (nullish_or (at_nat data i) zero))));
    [done|by rewrite alloc_length].
Qed.

Lemma raw_mask_same_size env score rest width height data w h :
  dims_differ (falsy_or w (of_nat width)) (falsy_or h (of_nat height))
    width height = false ->
  extractMaskData env
    (ResArray (SegObject (Some (raw_mask data w h)) score :: rest)) width height
  = Resolved
      (for_loop (width * height) (fun i maskData =>
         write maskData i
           (Some (normalize_value (nullish_or (at_nat data i) zero))))
       (alloc (width * height))).
Proof.
  intros Hsame. unfold extractMaskData, via_segments, or_else; simpl.
  unfold via_data; simpl. unfold dims_differ in Hsame. by rewrite Hsame.
Qed.

(** C3.  For a segment whose mask is a raw numeric buffer with no declared
    size or with the size of the target, the opacity buffer has
    [width * height] entries; entry [i] is the stored form (ToUint8) of
    [Math.round(v * 255)] when the raw value [v] is [<= 1] and of
    [Math.round(v)] otherwise, and 0 where the buffer has no entry.  The
    buffer [0.0, 0.5, 1.0, 128, 255] with target 5x1 gives
    [0, 128, 255, 128, 255]. *)
Theorem raw_values_normalized
    (env : Browser) (score : option number) (rest : list Segment)
    (width height : nat) (data : arraylike) (w h : option number) :
  dims_differ (falsy_or w (of_nat width)) (falsy_or h (of_nat height))
    width height = false ->
  (exists buf,
     extractMaskData env
       (ResArray (SegObject (Some (raw_mask data w h)) score :: rest))
       width height = Resolved buf /\
     length buf = width * height /\
     forall i, i < width * height ->
       match at_nat data i with
       | Some v =>
           buf !! i = Some (to_uint8 (if leb v one then math_round (mul v n255)
                                      else math_round v))
       | None => buf !! i = Some 0%Z
       end) /\
  extractMaskData env
    (ResArray [SegObject
       (Some (raw_mask [Some zero; Some half; Some one; Some n128; Some n255]
                None None)) None]) 5 1
  = Resolved [0; 128; 255; 128; 255]%Z.
Proof.
  intros Hsame. split; [|reflexivity].
  eexists. split; [by apply raw_mask_same_size|].
  split; [by rewrite store_loop_length, alloc_length|].
  intros i Hi. rewrite normalize_loop_lookup by done.
  destruct (at_nat data i) as [v|]; reflexivity.
Qed.

Lemma raw_values_normalized_witness :
  dims_differ (falsy_or None (of_nat 5)) (falsy_or None (of_nat 1)) 5 1 = false /\
  exists buf,
    extractMaskData offline_browser
      (ResArray [SegObject
         (Some (raw_mask [Some zero; Some half; Some one; Some n128; Some n255]
                  None None)) None]) 5 1 = Resolved buf /\
    length buf = 5.
Proof.
  split; [reflexivity|].
  destruct (raw_values_normalized offline_browser None [] 5 1
              [Some zero; Some half; Some one; Some n128; Some n255] None None
              eq_refl) as [[buf [Hbuf [Hlen _]]] _].
  exists buf. split; [exact Hbuf|exact Hlen].
Defined.

(** C10.  A raw value [v] above 255 is stored as its rounding reduced
    modulo 256, not clamped: in the per-segment raw-buffer loop and in the
    loop over a top-level [data] buffer alike.  256 is stored as 0 and 300
    as 44. *)
Theorem large_values_wrap
    (env : Browser) (score : option number) (rest : list Segment)
    (width height : nat) (data : arraylike) (w h : option number)
    (i : nat) (v : number) (r : Z) :
  dims_differ (falsy_or w (of_nat width)) (falsy_or h (of_nat height))
    width height = false ->
  i < width * height ->
  at_nat data i = Some v ->
  valid_binary prec emax v = true ->
  ltb n255 v = true ->
  round_int v = Some r ->
  (exists buf,
     extractMaskData env
       (ResArray (SegObject (Some (raw_mask data w h)) score :: rest))
       width height = Resolved buf /\
     buf !! i = Some (r mod 256)%Z) /\
  (exists buf,
     extractMaskData env (ResObject (Some data)) width height = Resolved buf /\
     buf !! i = Some (r mod 256)%Z) /\
  extractMaskData env
    (ResArray [SegObject (Some (raw_mask [Some n256; Some n300] None None)) None])
    2 1 = Resolved [0; 44]%Z /\
  extractMaskData env (ResObject (Some [Some n256; Some n300])) 2 1
    = Resolved [0; 44]%Z.
Proof.
  intros Hsame Hi Hv Hvalid H255 Hr.
  assert (Hstore : to_uint8 (normalize_value (nullish_or (at_nat data i) zero))
                   = (r mod 256)%Z).
  { rewrite Hv. simpl. by apply to_uint8_normalize_above_255. }
  split; [|split; [|split; reflexivity]].
  - eexists. split; [by apply raw_mask_same_size|].
    rewrite normalize_loop_lookup by done. by rewrite Hstore.
  - eexists. split; [reflexivity|].
    rewrite normalize_loop_lookup; [by rewrite Hstore| |done].
    apply Nat.min_glb_lt; [|done].
    unfold at_nat in Hv. destruct (data !! i) eqn:Hd; [|done].
    by apply lookup_lt_Some in Hd.
Qed.

Lemma large_values_wrap_witness :
  extractMaskData offline_browser
    (ResArray [SegObject (Some (raw_mask [Some n256; Some n300] None None)) None])
    2 1 = Resolved [0; 44]%Z.
Proof.
  exact (proj1 (proj2 (proj2
    (large_values_wrap offline_browser None [] 2 1 [Some n256; Some n300]
       None None 1 n300 300%Z eq_refl (le_n 2) eq_refl eq_refl eq_refl eq_refl)))).
Defined.

Lemma resample_nearest_neighbour_witness :
  truthy two = true /\
  dims_differ two two 4 4 = true /\
  extractMaskData offline_browser
    (ResArray [SegObject
       (Some (raw_mask [Some zero; Some n255; Some n255; Some zero]
                (Some two) (Some two))) None]) 4 4
  = Resolved (resizeMask [Some zero; Some n255; Some n255; Some zero] two two 4 4).
Proof.
  split; [reflexivity|]. split; [reflexivity|].
  exact (proj1 (proj1
    (resample_nearest_neighbour offline_browser None [] 4 4
       [Some zero; Some n255; Some n255; Some zero] two two
       [0; 0; 0; 255; 255; 255; 255; 255; 255; 255; 255; 255; 0; 0; 0; 255]%Z
       two two eq_refl eq_refl eq_refl eq_refl))).
Defined.

(** ** Compositing *)

(** The compositing loop stores to the alpha byte of one pixel per round. *)
Lemma composite_write_loop (pixels maskData : u8array) :
  composite pixels maskData =
  write_loop (fun i => i * 4 + 3)
    (fun i => to_uint8_clamp (default NaN (read maskData i)))
    (length maskData) pixels.
Proof. reflexivity. Qed.

(** Running a loop of stores to distinct indices a second time changes
    nothing. *)
Lemma write_loop_twice {A : Type} (idx : nat -> nat) (val : nat -> A)
    (n : nat) (a : list A) :
  (forall j j', j < n -> j' < n -> idx j = idx j' -> j = j') ->
  write_loop idx val n (write_loop idx val n a) = write_loop idx val n a.
Proof.
  intros Hinj. apply list_eq. intros k.
  destruct (decide (Exists (fun i => idx i = k) (seq 0 n))) as [Hex|Hno].
  - apply Exists_exists in Hex as (i & Hi%elem_of_seq & <-).
    destruct (decide (idx i < length a)) as [Hlt|Hge].
    + rewrite !write_loop_lookup; try done; try lia.
      by rewrite write_loop_length.
    + rewrite !(proj2 (lookup_ge_None _ _)); [done|..];
        rewrite ?write_loop_length; lia.
  - rewrite write_loop_untouched; [done|].
    intros i Hi Heq. apply Hno, Exists_exists.
    exists i. split; [apply elem_of_seq; lia|done].
Qed.

(** C8.  For an image of [n] pixels and an opacity buffer of [n] bytes,
    compositing leaves the length of the pixel buffer alone, makes the alpha
    byte of pixel [i] equal to [maskData[i]], leaves the R, G and B bytes of
    every pixel as they were, and compositing the result again with the
    same buffer changes nothing. *)
Theorem composite_alpha_only (pixels maskData : u8array) (n : nat) :
  length pixels = 4 * n ->
  length maskData = n ->
  Forall is_u8 maskData ->
  length (composite pixels maskData) = length pixels /\
  (forall i, i < n ->
     composite pixels maskData !! (i * 4 + 3) = maskData !! i) /\
  (forall i c, i < n -> c < 3 ->
     composite pixels maskData !! (i * 4 + c) = pixels !! (i * 4 + c)) /\
  composite (composite pixels maskData) maskData = composite pixels maskData.
Proof.
  intros Hpix Hmask Hu8. rewrite !composite_write_loop.
  assert (Hinj : forall j j', j < length maskData -> j' < length maskData ->
            j * 4 + 3 = j' * 4 + 3 -> j = j') by (intros; lia).
  split; [apply write_loop_length|].
  split; [|split].
  - intros i Hi.
    pose proof (write_loop_lookup (fun i => i * 4 + 3)
                  (fun i => to_uint8_clamp (default NaN (read maskData i)))
                  (length maskData) pixels i Hinj) as Hl.
    cbv beta in Hl. etrans; [apply Hl; lia|]. clear Hl.
    destruct (lookup_lt_is_Some_2 maskData i) as [z Hz]; [lia|].
    unfold read, u8array in *. rewrite Hz.
    cbn [fmap option_fmap option_map default]. f_equal.
    apply to_uint8_clamp_byte.
    rewrite Forall_forall in Hu8. apply Hu8. by eapply list_elem_of_lookup_2.
  - intros i c Hi Hc.
    apply (write_loop_untouched (fun i => i * 4 + 3)). intros; lia.
  - by apply write_loop_twice.
Qed.

Lemma composite_alpha_only_witness :
  composite [10; 20; 30; 255; 40; 50; 60; 255]%Z [0; 128]%Z
  = [10; 20; 30; 0; 40; 50; 60; 128]%Z /\
  composite (composite [10; 20; 30; 255; 40; 50; 60; 255]%Z [0; 128]%Z) [0; 128]%Z
  = composite [10; 20; 30; 255; 40; 50; 60; 255]%Z [0; 128]%Z.
Proof.
  split; [reflexivity|].
  refine (proj2 (proj2 (proj2
    (composite_alpha_only [10; 20; 30; 255; 40; 50; 60; 255]%Z [0; 128]%Z 2
       eq_refl eq_refl _)))).
  repeat constructor; unfold is_u8; lia.
Defined.

(** ** The letterbox fit of [loadImageToCanvas] *)

Import ImageUtils.

(** Comparing two Numbers the other way round gives the opposite answer. *)
Lemma SFcompare_antisym (a b : number) (c : comparison) :
  SFcompare a b = Some c -> SFcompare b a = Some (CompOpp c).
Proof.
  destruct a as [sa|sa| |sa ma ea], b as [sb|sb| |sb mb eb];
    try discriminate; cbn [SFcompare];
    try (destruct sa; intros [= <-]; reflexivity);
    try (destruct sb; intros [= <-]; reflexivity);
    try (intros [= <-]; reflexivity).
  - destruct sa, sb; intros [= <-]; reflexivity.
  - destruct sa, sb; intros [= <-]; try reflexivity.
    + rewrite (Z.compare_antisym ea eb).
      destruct (ea ?= eb)%Z; cbn [CompOpp]; try reflexivity.
      do 2 f_equal. symmetry. exact (Pos.compare_cont_antisym ma mb Eq).
    + rewrite (Z.compare_antisym ea eb).
      destruct (ea ?= eb)%Z; cbn [CompOpp]; try reflexivity.
      f_equal. symmetry. exact (Pos.compare_cont_antisym ma mb Eq).
Qed.

Lemma SFltb_asym (a b : number) : SFltb a b = true -> SFltb b a = false.
Proof.
  unfold SFltb. destruct (SFcompare a b) as [c|] eqn:E; [|discriminate].
  rewrite (SFcompare_antisym a b c E). by destruct c.
Qed.

Lemma SFltb_irrefl (a : number) : SFltb a a = false.
Proof.
  destruct (SFltb a a) eqn:E; [|done].
  by rewrite (SFltb_asym a a E) in E.
Qed.

Lemma pick_least (a b : number) :
  let m := if SFltb b a then b else a in
  SFltb a m = false /\ SFltb b m = false /\ (m = a \/ m = b).
Proof.
  cbv zeta. destruct (SFltb b a) eqn:E.
  - repeat split; [by apply SFltb_asym|apply SFltb_irrefl|by right].
  - repeat split; [apply SFltb_irrefl|done|by left].
Qed.

(** [Math.min] gives one of its arguments, and neither argument is below
    it. *)
Lemma math_min_least (a b : number) :
  ltb a (math_min a b) = false /\ ltb b (math_min a b) = false /\
  (math_min a b = a \/ math_min a b = b).
Proof.
  unfold ltb.
  destruct a as [sa|sa| |sa ma ea], b as [sb|sb| |sb mb eb];
    cbn [math_min]; try exact (pick_least _ _);
    try (repeat split; (by left) || (by right) || done).
  destruct sa, sb; repeat split; (by left) || (by right) || done.
Qed.

(** C9.  [loadImageToCanvas] draws the image scaled by the one factor
    [min(targetSize / width, targetSize / height)] on both axes and centred:
    the factor is one of the two ratios and neither ratio is below it, and
    the offsets are half of what the scaled image leaves free.  For a
    2000x1000 image and a 1024x1024 canvas the computed Numbers are exactly
    scaledWidth 1024, scaledHeight 512, offsetX 0 and offsetY 256, so that
    the 512 rows left over are 256 above and 256 below; for a 1000x2000
    image they are scaledWidth 512, scaledHeight 1024, offsetX 256 and
    offsetY 0, with 256 columns left and right. *)
Theorem letterbox_fit :
  (forall targetSize w h,
     let r := fit targetSize w h in
     scale r = math_min (div (of_nat targetSize) (of_nat w))
                        (div (of_nat targetSize) (of_nat h)) /\
     scaledWidth r = mul (of_nat w) (scale r) /\
     scaledHeight r = mul (of_nat h) (scale r) /\
     offsetX r = div (sub (of_nat targetSize) (scaledWidth r)) two /\
     offsetY r = div (sub (of_nat targetSize) (scaledHeight r)) two /\
     ltb (div (of_nat targetSize) (of_nat w)) (scale r) = false /\
     ltb (div (of_nat targetSize) (of_nat h)) (scale r) = false /\
     (scale r = div (of_nat targetSize) (of_nat w) \/
      scale r = div (of_nat targetSize) (of_nat h))) /\
  (let r := fit 1024 2000 1000 in
   scale r = div (of_Z 1024) (of_Z 2000) /\
   scaledWidth r = of_Z 1024 /\
   scaledHeight r = of_Z 512 /\
   offsetX r = of_Z 0 /\
   offsetY r = of_Z 256 /\
   sub (of_Z 1024) (add (offsetY r) (scaledHeight r)) = of_Z 256) /\
  (let r := fit 1024 1000 2000 in
   scale r = div (of_Z 1024) (of_Z 2000) /\
   scaledWidth r = of_Z 512 /\
   scaledHeight r = of_Z 1024 /\
   offsetX r = of_Z 256 /\
   offsetY r = of_Z 0 /\
   sub (of_Z 1024) (add (offsetX r) (scaledWidth r)) = of_Z 256) /\
  loadImageToCanvas (Some (2000, 1000)) true MODEL_INPUT_SIZE
  = Resolved {| canvasWidth := 1024; canvasHeight := 1024;
                drawn := fit 1024 2000 1000;
                originalWidth := 2000; originalHeight := 1000 |}.
Proof.
  split; [|split; [|split]].
  - intros targetSize w h. cbv zeta.
    destruct (math_min_least (div (of_nat targetSize) (of_nat w))
                (div (of_nat targetSize) (of_nat h))) as (Hw & Hh & Hone).
    repeat split; assumption.
  - cbv zeta. repeat split; vm_compute; reflexivity.
  - cbv zeta. repeat split; vm_compute; reflexivity.
  - reflexivity.
Qed.

(** ** The segmenter singleton *)

Section SingletonFacts.

Context {Segmenter : Type}.
Implicit Types (st : State Segmenter) (s : Segmenter).

(** With a cached instance every call returns it and changes nothing. *)
Lemma calls_cached st s n :
  segmenterInstance st = Some s ->
  calls n st = (st, replicate n (Instance s)).
Proof.
  intros Hs. induction n as [|n IH]; [done|].
  simpl. unfold getSegmenter. rewrite Hs, IH. done.
Qed.

(** While a load is in flight every call is tied to it and changes
    nothing. *)
Lemma calls_in_flight st p n :
  segmenterInstance st = None -> loadingPromise st = Some p ->
  calls n st = (st, replicate n (InFlight p)).
Proof.
  intros Hs Hp. induction n as [|n IH]; [done|].
  simpl. unfold getSegmenter. rewrite Hs, Hp, IH. done.
Qed.

(** From a state with no instance and no load in flight, the first of any
    number of calls starts a load and the others join it. *)
Lemma calls_idle st n :
  segmenterInstance st = None -> loadingPromise st = None ->
  calls (S n) st =
    ({| segmenterInstance := None;
        loadingPromise := Some (length (loads st));
        loads := loads st ++ [None] |},
     replicate (S n) (InFlight (length (loads st)))).
Proof.
  intros Hs Hp. simpl. unfold getSegmenter at 1. rewrite Hs, Hp.
  by rewrite (calls_in_flight _ (length (loads st))).
Qed.

End SingletonFacts.

(** C5.  From a state with no instance and no load in flight, any number of
    [getSegmenter] calls issued before the load settles start exactly one
    load (one new promise in [loads]) and are all tied to that load; once it
    has succeeded, each of them has resolved with the instance, and any
    further calls return the cached instance without touching the state, so
    without starting a load. *)
Theorem concurrent_calls_share_one_load
    {Segmenter : Type} (st : State Segmenter) (n k : nat) (s : Segmenter) :
  segmenterInstance st = None ->
  loadingPromise st = None ->
  let p := length (loads st) in
  let st1 := fst (calls (S (S n)) st) in
  let handles := snd (calls (S (S n)) st) in
  let st2 := settle st1 p (Loaded s) in
  length (loads st1) = S (length (loads st)) /\
  handles = replicate (S (S n)) (InFlight p) /\
  segmenterInstance st2 = Some s /\
  Forall (fun h => observed st2 h = Some (Resolved s)) handles /\
  calls k st2 = (st2, replicate k (Instance s)) /\
  length (loads (fst (calls k st2))) = S (length (loads st)).
Proof.
  intros Hs Hp. cbv zeta. rewrite calls_idle by done. cbn [fst snd].
  assert (Hpending : (loads st ++ [None]) !! length (loads st)
                     = Some (@None (outcome Segmenter))).
  { rewrite lookup_app_r by lia. by rewrite Nat.sub_diag. }
  unfold settle. cbn [loads]. rewrite Hpending.
  cbn [initializeModel resume loads segmenterInstance loadingPromise].
  split; [rewrite length_app; simpl; lia|].
  split; [done|]. split; [done|].
  assert (Hlook : <[length (loads st) := Some (Resolved s)]> (loads st ++ [None])
                    !! length (loads st) = Some (Some (Resolved s))).
  { apply list_lookup_insert_eq. rewrite length_app. simpl. lia. }
  split.
  - apply Forall_forall. intros h Hh.
    apply elem_of_replicate in Hh as [-> _].
    cbn [observed loads]. by rewrite Hlook.
  - rewrite calls_cached with (s := s) by done. cbn [fst loads].
    split; [done|]. rewrite length_insert, length_app. simpl. lia.
Qed.

Lemma concurrent_calls_share_one_load_witness :
  calls 2 (@initial nat)
  = ({| segmenterInstance := None; loadingPromise := Some 0; loads := [None] |},
     [InFlight 0; InFlight 0]) /\
  length (loads (fst (calls 2 (@initial nat)))) = 1.
Proof.
  split; [reflexivity|].
  exact (proj1 (concurrent_calls_share_one_load (@initial nat) 0 3 7
                  eq_refl eq_refl)).
Defined.

(** C6.  When the load in flight fails, every call tied to it rejects with
    the error of that load (the error the backend threw when that is an
    [Error]), no instance is cached and [loadingPromise] is cleared; the
    next [getSegmenter] call starts a load of its own, with a new
    promise. *)
Theorem failed_load_is_not_cached
    {Segmenter : Type} (st : State Segmenter) (n : nat)
    (b : backend_result Segmenter) (message : string) :
  segmenterInstance st = None ->
  loadingPromise st = None ->
  initializeModel b = Rejected message ->
  let p := length (loads st) in
  let st1 := fst (calls (S n) st) in
  let handles := snd (calls (S n) st) in
  let st2 := settle st1 p b in
  Forall (fun h => observed st2 h = Some (Rejected message)) handles /\
  segmenterInstance st2 = None /\
  loadingPromise st2 = None /\
  length (loads st2) = S p /\
  getSegmenter st2 =
    ({| segmenterInstance := None;
        loadingPromise := Some (S p);
        loads := loads st2 ++ [None] |}, InFlight (S p)) /\
  (forall m, b = ThrowsError m -> message = m).
Proof.
  intros Hs Hp Hb. cbv zeta. rewrite calls_idle by done. cbn [fst snd].
  assert (Hpending : (loads st ++ [None]) !! length (loads st)
                     = Some (@None (outcome Segmenter))).
  { rewrite lookup_app_r by lia. by rewrite Nat.sub_diag. }
  unfold settle. cbn [loads]. rewrite Hpending, Hb.
  cbn [resume loads segmenterInstance loadingPromise].
  assert (Hlen : length (<[length (loads st) := Some (Rejected message)]>
                           (loads st ++ [None])) = S (length (loads st))).
  { rewrite length_insert, length_app. simpl. lia. }
  split; [|split; [done|split; [done|split; [done|split]]]].
  - apply Forall_forall. intros h Hh.
    apply elem_of_replicate in Hh as [-> _]. cbn [observed loads].
    rewrite list_lookup_insert_eq; [done|].
    rewrite length_app. simpl. lia.
  - unfold getSegmenter. cbn [segmenterInstance loadingPromise loads].
    by rewrite Hlen.
  - intros m ->. simpl in Hb. congruence.
Qed.

Lemma failed_load_is_not_cached_witness :
  let st2 := settle (fst (calls 2 (@initial nat))) 0 (ThrowsError "network") in
  observed st2 (InFlight 0) = Some (Rejected "network") /\
  getSegmenter st2 =
    ({| segmenterInstance := None; loadingPromise := Some 1;
        loads := [Some (Rejected "network"); None] |}, InFlight 1).
Proof.
  cbv zeta. split; [reflexivity|].
  exact (proj1 (proj2 (proj2 (proj2 (proj2
    (failed_load_is_not_cached (@initial nat) 1 (ThrowsError "network") "network"
       eq_refl eq_refl eq_refl)))))).
Defined.

(** ** Rounding and upper bounds

    What follows shows that a quotient of byte counts [l <= t], and its
    product with 100, never round above 1 and 100: the bound is an integer,
    integers of that size lie on the grid the result is rounded to, and
    rounding to nearest cannot step over a grid point. *)

Section RoundingBounds.

Local Open Scope Z_scope.

Lemma Zdigits2_le (m n : Z) : 0 <= n -> 0 <= m < 2 ^ n -> Zdigits2 m <= n.
Proof.
  intros Hn [Hlo Hhi]. destruct m as [|p|p]; simpl; [lia| |lia].
  by apply digits2_pos_le.
Qed.

Lemma shifts_shr_1 : shifts 1 shr_1.
Proof.
  intros [m r s] Hm. cbn [shr_m] in Hm. rewrite Z.pow_1_r.
  destruct m as [|[p|p|]|p]; cbn [shr_1 shr_m shr_r shr_s]; [| | | |lia].
  - split; [reflexivity|]. by intros _ -> ->.
  - rewrite Pos2Z.inj_xI.
    split; [|intros H]; Z.to_euclidean_division_equations; lia.
  - rewrite Pos2Z.inj_xO.
    split; [Z.to_euclidean_division_equations; lia|]. by intros _ -> ->.
  - split; [reflexivity|]. intros H. discriminate H.
Qed.

Lemma shifts_compose (a b : Z) (g h : shr_record -> shr_record) :
  0 <= a -> 0 <= b -> shifts a g -> shifts b h ->
  shifts (a + b) (fun mrs => h (g mrs)).
Proof.
  intros Ha Hb Hg Hh mrs Hm.
  destruct (Hg mrs Hm) as [Hgm Hgx].
  assert (HA : 0 < 2 ^ a) by (apply Z.pow_pos_nonneg; lia).
  assert (HB : 0 < 2 ^ b) by (apply Z.pow_pos_nonneg; lia).
  assert (Hm' : 0 <= shr_m (g mrs)).
  { rewrite Hgm. apply Z.div_pos; lia. }
  destruct (Hh (g mrs) Hm') as [Hhm Hhx].
  rewrite Z.pow_add_r by lia.
  split.
  - rewrite Hhm, Hgm. rewrite Z.div_div by lia. reflexivity.
  - intros Hmod Hr Hs.
    assert (Hdiv : shr_m mrs = 2 ^ a * (2 ^ b * (shr_m mrs / (2 ^ a * 2 ^ b)))).
    { rewrite Z.mul_assoc. apply Z.div_exact; [lia|done]. }
    assert (Hmod_a : shr_m mrs mod 2 ^ a = 0).
    { rewrite Hdiv. rewrite Z.mul_comm. apply Z.mod_mul. lia. }
    destruct (Hgx Hmod_a Hr Hs) as [Hr' Hs'].
    apply Hhx; [|done|done].
    rewrite Hgm. rewrite Hdiv at 1.
    rewrite Z.mul_comm, Z.div_mul by lia.
    rewrite Z.mul_comm. apply Z.mod_mul. lia.
Qed.

Lemma shifts_iter_pos (k : positive) : shifts (Zpos k) (SpecFloat.iter_pos shr_1 k).
Proof.
  induction k as [k IH|k IH|].
  - replace (Zpos k~1) with (1 + Zpos k + Zpos k) by lia.
    apply (shifts_compose (1 + Zpos k) (Zpos k)
             (fun mrs => SpecFloat.iter_pos shr_1 k (shr_1 mrs)) (SpecFloat.iter_pos shr_1 k));
      [lia|lia| |done].
    apply (shifts_compose 1 (Zpos k) shr_1 (SpecFloat.iter_pos shr_1 k));
      [lia|lia|apply shifts_shr_1|done].
  - replace (Zpos k~0) with (Zpos k + Zpos k) by lia.
    apply (shifts_compose (Zpos k) (Zpos k)
             (SpecFloat.iter_pos shr_1 k) (SpecFloat.iter_pos shr_1 k)); [lia|lia|done|done].
  - apply shifts_shr_1.
Qed.

Lemma shr_record_of_loc_m (m : Z) (l : location) :
  shr_m (shr_record_of_loc m l) = m.
Proof. by destruct l as [|[]]. Qed.

Lemma loc_of_shr_record_of_loc (m : Z) (l : location) :
  loc_of_shr_record (shr_record_of_loc m l) = l.
Proof. by destruct l as [|[]]. Qed.

Lemma loc_exact_iff (mrs : shr_record) :
  shr_r mrs = false -> shr_s mrs = false -> loc_of_shr_record mrs = loc_Exact.
Proof. destruct mrs as [m r s]; simpl. by intros -> ->. Qed.

Lemma round_nearest_even_bounds (m : Z) (l : location) :
  m <= round_nearest_even m l <= m + 1 /\
  (l = loc_Exact -> round_nearest_even m l = m).
Proof.
  destruct l as [|[]]; simpl; try (split; [lia|done]).
  destruct (Z.even m); split; lia || done.
Qed.

(** One alignment step of the rounding: the mantissa stays at or below the
    bound [N] (read at the new exponent), and where it meets the bound the
    record is exact. *)
Lemma shr_fexp_stage (mx ex : Z) (lx : location) (N B : Z) :
  0 <= mx -> 0 < N < 2 ^ (B + 53) -> -1074 <= B <= 0 -> ex <= B ->
  mx < N * 2 ^ (- ex) \/ (mx = N * 2 ^ (- ex) /\ lx = loc_Exact) ->
  exists mrs e1,
    shr_fexp prec emax mx ex lx = (mrs, e1) /\
    0 <= shr_m mrs /\ ex <= e1 <= B /\
    (shr_m mrs < N * 2 ^ (- e1) \/
     (shr_m mrs = N * 2 ^ (- e1) /\ loc_of_shr_record mrs = loc_Exact)).
Proof.
  intros Hmx HN HB Hex Hbound. unfold shr_fexp, shr.
  assert (HB53 : 0 <= B + 53).
  { destruct (Z.lt_ge_cases (B + 53) 0) as [Hneg|]; [|done].
    rewrite Z.pow_neg_r in HN by done. lia. }
  destruct (fexp prec emax (Zdigits2 mx + ex) - ex) as [|k|k] eqn:Hk.
  - eexists _, _. split; [reflexivity|].
    rewrite shr_record_of_loc_m, loc_of_shr_record_of_loc. repeat split; lia || done.
  - assert (Hpow : 0 < 2 ^ (- ex)) by (apply Z.pow_pos_nonneg; lia).
    assert (Hdig : Zdigits2 mx <= B + 53 - ex).
    { apply Zdigits2_le; [lia|]. split; [done|].
      replace (B + 53 - ex) with ((B + 53) + (- ex)) by lia.
      rewrite Z.pow_add_r by lia. nia. }
    assert (He1 : ex + Zpos k <= B).
    { unfold fexp, emin, prec, emax in Hk. lia. }
    destruct (shifts_iter_pos k (shr_record_of_loc mx lx)) as [Hm Hx].
    { by rewrite shr_record_of_loc_m. }
    rewrite shr_record_of_loc_m in Hm, Hx.
    eexists _, _. split; [reflexivity|].
    assert (Hk2 : 0 < 2 ^ Zpos k) by (apply Z.pow_pos_nonneg; lia).
    assert (Hsplit : 2 ^ (- ex) = 2 ^ (- (ex + Zpos k)) * 2 ^ Zpos k).
    { rewrite <- Z.pow_add_r by lia. f_equal. lia. }
    assert (Hpow1 : 0 < 2 ^ (- (ex + Zpos k))) by (apply Z.pow_pos_nonneg; lia).
    rewrite Hm. split; [apply Z.div_pos; lia|]. split; [lia|].
    set (q := mx / 2 ^ Zpos k).
    assert (Hq : 2 ^ Zpos k * q <= mx < 2 ^ Zpos k * (q + 1)).
    { unfold q. split; [apply Z.mul_div_le; lia|].
      apply Z.mul_succ_div_gt. lia. }
    set (M := N * 2 ^ (- (ex + Zpos k))) in *.
    assert (HM : N * 2 ^ (- ex) = M * 2 ^ Zpos k) by (unfold M; rewrite Hsplit; ring).
    destruct (Z.lt_trichotomy q M) as [Hlt|[Heq|Hgt]].
    + by left.
    + right. split; [done|].
      destruct Hbound as [Hb|[Hb Hl]]; [nia|].
      apply loc_exact_iff; apply Hx.
      * rewrite Hb, HM. apply Z.mod_mul. lia.
      * rewrite Hl. reflexivity.
      * rewrite Hl. reflexivity.
      * rewrite Hb, HM. apply Z.mod_mul. lia.
      * rewrite Hl. reflexivity.
      * rewrite Hl. reflexivity.
    + exfalso. destruct Hbound as [Hb|[Hb _]]; nia.
  - eexists _, _. split; [reflexivity|].
    rewrite shr_record_of_loc_m, loc_of_shr_record_of_loc. repeat split; lia || done.
Qed.

(** Rounding a non-negative value that is at most the integer [N] gives +0
    or a positive Number that is at most [N]. *)
Lemma binary_round_aux_at_most (mx ex : Z) (lx : location) (N B : Z) :
  0 <= mx -> 0 < N < 2 ^ (B + 53) -> -1074 <= B < 0 -> ex <= B ->
  mx < N * 2 ^ (- ex) \/ (mx = N * 2 ^ (- ex) /\ lx = loc_Exact) ->
  at_most (binary_round_aux prec emax false mx ex lx) N.
Proof.
  intros Hmx HN HB Hex Hbound. unfold binary_round_aux.
  destruct (shr_fexp_stage mx ex lx N B) as (mrs1 & e1 & -> & Hm1 & He1 & Hb1);
    [done|done|lia|done|done|].
  destruct (round_nearest_even_bounds (shr_m mrs1) (loc_of_shr_record mrs1))
    as [Hr Hrx].
  set (m1 := round_nearest_even (shr_m mrs1) (loc_of_shr_record mrs1)) in *.
  assert (Hb1' : m1 <= N * 2 ^ (- e1)).
  { destruct Hb1 as [Hlt|[Heq Hl]]; [lia|]. rewrite (Hrx Hl). lia. }
  destruct (shr_fexp_stage m1 e1 loc_Exact N B) as (mrs2 & e2 & -> & Hm2 & He2 & Hb2);
    [lia|done|lia|lia| |].
  { destruct (Z.eq_dec m1 (N * 2 ^ (- e1))); [by right|left; lia]. }
  destruct (shr_m mrs2) as [|m|m] eqn:Hm; [by left| |lia].
  replace (e2 <=? emax - prec) with true
    by (symmetry; apply Z.leb_le; unfold emax, prec; lia).
  right. exists m, e2. split; [done|]. split; [lia|].
  destruct Hb2 as [Hlt|[Heq _]]; lia.
Qed.

Lemma digits2_pos_mono (l t : positive) :
  Zpos l <= Zpos t -> Zpos (digits2_pos l) <= Zpos (digits2_pos t).
Proof.
  intros Hlt.
  destruct (digits2_pos_bounds l) as [Hl _].
  destruct (digits2_pos_bounds t) as [_ Ht].
  apply digits2_pos_le; lia.
Qed.

Lemma new_location_zero (nb_steps : Z) : new_location nb_steps 0 = loc_Exact.
Proof.
  unfold new_location, new_location_even, new_location_odd.
  by destruct (Z.even nb_steps).
Qed.

(** The quotient of two byte counts [l <= t] is at most 1. *)
Lemma div_counts_at_most_one (l t : positive) :
  Zpos l <= Zpos t -> Zpos t < 2 ^ 53 ->
  at_most (div (of_Z (Zpos l)) (of_Z (Zpos t))) 1.
Proof.
  intros Hlt Ht. unfold of_Z, binary_normalize.
  destruct (binary_round_small false l) as (ml & el & -> & Hel & Hml & Hdl & Hel').
  { apply digits2_pos_le; lia. }
  destruct (binary_round_small false t) as (mt & et & -> & Het & Hmt & Hdt & Het').
  { apply digits2_pos_le; lia. }
  pose proof (digits2_pos_mono l t Hlt) as Hmono.
  unfold div, SFdiv, SFdiv_core_binary, Zdigits2. rewrite Hdl, Hdt.
  replace (Z.min (fexp prec emax (53 + el - (53 + et))) (el - et))
    with (el - et - 53) by (unfold fexp, emin, prec, emax; lia).
  replace (el - et - (el - et - 53)) with 53 by lia.
  cbv beta iota zeta.
  rewrite Z.shiftl_mul_pow2 by lia.
  pose proof (Z.div_eucl_eq (Zpos ml * 2 ^ 53) (Zpos mt) ltac:(lia)) as Heucl.
  pose proof (Z.mod_pos_bound (Zpos ml * 2 ^ 53) (Zpos mt) ltac:(lia)) as Hrem.
  unfold Z.modulo in Hrem.
  destruct (Z.div_eucl (Zpos ml * 2 ^ 53) (Zpos mt)) as [q r].
  simpl xorb.
  assert (HA : 0 < 2 ^ (- el)) by (apply Z.pow_pos_nonneg; lia).
  assert (HB : 0 < 2 ^ (- et)) by (apply Z.pow_pos_nonneg; lia).
  assert (HT : 2 ^ (- (el - et - 53)) * 2 ^ (- et) = 2 ^ 53 * 2 ^ (- el)).
  { rewrite <- !Z.pow_add_r by lia. f_equal. lia. }
  assert (HTpos : 0 < 2 ^ (- (el - et - 53))) by (apply Z.pow_pos_nonneg; lia).
  set (A := 2 ^ (- el)) in *. set (Bt := 2 ^ (- et)) in *.
  set (T := 2 ^ (- (el - et - 53))) in *.
  assert (Hval : Zpos ml * Bt <= Zpos mt * A) by (rewrite Hml, Hmt; nia).
  assert (Hq0 : 0 <= q) by nia.
  assert (HqT : (q * Zpos mt + r) * Bt <= Zpos mt * (T * Bt)).
  { rewrite HT. nia. }
  apply (binary_round_aux_at_most q (el - et - 53) (new_location (Zpos mt) r) 1 (-52));
    [done|done|lia|lia|].
  rewrite Z.mul_1_l. fold T.
  destruct (Z.lt_trichotomy q T) as [Hlt'|[Heq|Hgt]]; [by left| |exfalso; nia].
  right. split; [done|].
  assert (r = 0) as -> by nia. apply new_location_zero.
Qed.

(** A Number that is at most 1, times 100, is at most 100. *)
Lemma mul_100_at_most (q : number) : at_most q 1 -> at_most (mul q n100) 100.
Proof.
  assert (E100 : n100 = S754_finite false 7036874417766400 (-46)) by reflexivity.
  rewrite E100.
  intros [->|(m & e & -> & He & Hm)]; [by left|].
  unfold mul, SFmul. simpl xorb.
  apply (binary_round_aux_at_most _ _ _ 100 (-46)); [lia|done|lia|lia|].
  assert (HP : 0 < 2 ^ (- e)) by (apply Z.pow_pos_nonneg; lia).
  assert (Hsplit : 2 ^ (- (e + -46)) = 2 ^ 46 * 2 ^ (- e)).
  { rewrite <- Z.pow_add_r by lia. f_equal. lia. }
  rewrite Hsplit, Pos2Z.inj_mul.
  change (Zpos 7036874417766400) with (100 * 2 ^ 46).
  rewrite Z.mul_1_l in Hm.
  destruct (Z.eq_dec (Zpos m * (100 * 2 ^ 46)) (100 * (2 ^ 46 * 2 ^ (- e))));
    [by right|left; nia].
Qed.

(** [Math.round] of a Number that is at most 100 is an integer from 0
    to 100. *)
Lemma round_at_most_100 (x : number) :
  at_most x 100 -> exists p, 0 <= p <= 100 /\ math_round x = of_Z p.
Proof.
  intros [->|(m & e & -> & He & Hm)]; [by exists 0|].
  unfold math_round. destruct (Z.leb_spec 0 e) as [|_]; [lia|]. cbv zeta.
  exists (Zround_scaled (signed false m) e).
  assert (Hr : 0 <= Zround_scaled (signed false m) e <= 100).
  { unfold Zround_scaled, signed. simpl cond_Zopp.
    destruct (Z.leb_spec 0 e) as [|_]; [lia|].
    rewrite shiftl_neg_div by lia.
    assert (HP : 0 < 2 ^ (- e - 1)) by (apply Z.pow_pos_nonneg; lia).
    assert (H2 : 2 ^ (- e) = 2 * 2 ^ (- e - 1)).
    { rewrite <- Z.pow_succ_r by lia. f_equal. lia. }
    rewrite H2 in *. set (P := 2 ^ (- e - 1)) in *.
    split; [apply Z.div_pos; lia|].
    apply Z.lt_succ_r, Z.div_lt_upper_bound; lia. }
  split; [done|].
  destruct (Z.eqb_spec (Zround_scaled (signed false m) e) 0) as [->|_]; done.
Qed.

(** The percentage of a byte-progress event with [0 < l <= t]. *)
Lemma percentage_of_counts (l t : nat) :
  (0 < l <= t)%nat -> Z.of_nat t < 2 ^ 53 ->
  exists p, 0 <= p <= 100 /\
    math_round (mul (div (of_nat l) (of_nat t)) n100) = of_Z p.
Proof.
  intros Hlt Ht. apply round_at_most_100, mul_100_at_most.
  unfold of_nat.
  destruct (Z.of_nat l) as [|pl|pl] eqn:El; [lia| |lia].
  destruct (Z.of_nat t) as [|pt|pt] eqn:Et; [lia| |lia].
  apply div_counts_at_most_one; lia.
Qed.

End RoundingBounds.

(** ** Progress normalisation *)

(** C4, as stated, fails: the percentages of a run over two files go from
    100 (the first file is done) back to 0 (the second file is
    announced). *)
Lemma two_file_run_not_monotonic :
  percent_values two_file_run
  = [Some 0; Some 0; Some 100; Some 100; Some 0; Some 0; Some 25; Some 100;
     Some 100; Some 100]%Z /\
  ~ nondecreasing_run two_file_run.
Proof.
  assert (E : percent_values two_file_run
              = [Some 0; Some 0; Some 100; Some 100; Some 0; Some 0; Some 25;
                 Some 100; Some 100; Some 100]%Z) by (vm_compute; reflexivity).
  split; [exact E|].
  intros Hmono. specialize (Hmono 3 4 100%Z 0%Z). rewrite E in Hmono.
  specialize (Hmono ltac:(lia) eq_refl eq_refl). lia.
Qed.

(** C4, amended.  [normalizeProgress] gives every event of a run the
    percentage computed from that event alone: 0 for [initiate] and
    [download], 100 for [done] and [ready], 0 for a [progress] event whose
    [loaded] or [total] is missing or zero, and for a [progress] event with
    byte counts [0 < loaded <= total] the integer
    [Math.round(loaded / total * 100)], which lies between 0 and 100. *)
Theorem progress_percentages_eventwise (events : list ProgressInfo) :
  percentages events = (fun e => Some (percentage e)) <$> events /\
  Forall (fun e =>
    match status e with
    | Initiate | Download => percentage e = of_Z 0
    | Done | Ready => percentage e = of_Z 100
    | Progress =>
        (truthy_prop (loaded e) && truthy_prop (total e) = false ->
         percentage e = of_Z 0) /\
        (forall l t : nat,
           loaded e = Some (of_nat l) -> total e = Some (of_nat t) ->
           0 < l <= t -> (Z.of_nat t < 2 ^ 53)%Z ->
           exists p : Z, (0 <= p <= 100)%Z /\ percentage e = of_Z p)
    end) events.
Proof.
  split; [reflexivity|].
  apply Forall_forall. intros e _.
  unfold percentage.
  destruct (status e) eqn:Hst; cbn [is_progress is_done is_ready andb];
    try reflexivity.
  split.
  - intros ->. reflexivity.
  - intros l t Hl Ht Hlt Hbound. rewrite Hl, Ht. cbn [truthy_prop default].
    assert (Htruthy : forall k : nat, 0 < k -> (Z.of_nat k < 2 ^ 53)%Z ->
              truthy (of_nat k) = true).
    { intros k Hk Hk53. unfold of_nat, of_Z, binary_normalize.
      destruct (Z.of_nat k) as [|pk|pk] eqn:Ek; [lia| |lia].
      destruct (binary_round_small false pk) as (m & x & -> & _);
        [apply digits2_pos_le; lia|done]. }
    rewrite !Htruthy by lia. cbn [andb].
    by apply percentage_of_counts.
Qed.

Lemma progress_percentages_eventwise_witness :
  exists p : Z, (0 <= p <= 100)%Z /\
    percentage (bytes_event "model.onnx" 50 200) = of_Z p.
Proof.
  pose proof (proj2 (progress_percentages_eventwise
                       [bytes_event "model.onnx" 50 200])) as H.
  apply Forall_inv in H. simpl in H.
  apply (proj2 H 50 200 eq_refl eq_refl); [lia|reflexivity].
Defined.

(* ===================================================================== *)
(** * Further properties *)
(* ===================================================================== *)

(** ** The cascade of [extractMaskData] *)

Lemma via_toCanvas_unusable mask w h maskData :
  toCanvas_unusable mask -> via_toCanvas mask w h maskData = None.
Proof.
  unfold toCanvas_unusable, via_toCanvas.
  by destruct (mask_toCanvas mask) as [[| |cw ch px]|].
Qed.

Lemma via_toDataURL_unusable env mask w h :
  toDataURL_unusable mask -> via_toDataURL env mask w h = None.
Proof.
  unfold toDataURL_unusable, via_toDataURL.
  by destruct (mask_toDataURL mask) as [[url|m]|].
Qed.

(** X1: [extractMaskData] rejects exactly when the first segment has a mask
    whose [toCanvas] and [data] probes fall through, whose [toDataURL]
    gives a URL, and [extractMaskFromImage] rejects for that URL; the error
    is the one of [extractMaskFromImage]. *)
Theorem extractMaskData_rejects_iff
    (env : Browser) (result : SegResult) (width height : nat) (e : string) :
  extractMaskData env result width height = Rejected e <->
  exists mask score rest url,
    result = ResArray (SegObject (Some mask) score :: rest) /\
    toCanvas_unusable mask /\
    mask_data mask = None /\
    mask_toDataURL mask = Some (Resolved url) /\
    extractMaskFromImage env url width height = Rejected e.
Proof.
  split.
  - unfold extractMaskData.
    destruct result as [|segs|data]; [done| |].
    + destruct segs as [|[|[mask|] score] rest]; cbn [via_segments or_else].
      * done.
      * done.
      * unfold via_toCanvas, via_data, via_toDataURL, via_score, toCanvas_unusable.
        destruct (mask_toCanvas mask) as [[| |cw ch px]|] eqn:Hc; cbn [or_else];
          try (destruct (_ || _); done);
          (destruct (mask_data mask) as [d|] eqn:Hd; cbn [or_else];
            [cbv zeta; destruct (_ || _); done|]);
          (destruct (mask_toDataURL mask) as [[url|m]|] eqn:Hu; cbn [or_else];
            [intros He; exists mask, score, rest, url; by rewrite Hc, He
            |destruct score; done
            |destruct score; done]).
      * unfold via_score. destruct score; done.
    + cbn [via_segments or_else]. unfold via_result_data. cbn [result_data].
      destruct data; done.
  - intros (mask & score & rest & url & -> & Hc & Hd & Hu & He).
    unfold extractMaskData. cbn [via_segments].
    rewrite (via_toCanvas_unusable mask) by done.
    unfold via_data, via_toDataURL. rewrite Hd, Hu. cbn [or_else]. by rewrite He.
Qed.

(** X2: a segment with a numeric score and no usable mask gives the uniform
    buffer: 255 everywhere when [score > 0.5], otherwise 0 everywhere.  The
    comparison is strict and fails for NaN, so a score of exactly 0.5 and a
    NaN score both give the all-zero buffer. *)
Theorem score_fallback
    (env : Browser) (mask : option Mask) (score : number)
    (rest : list Segment) (width height : nat) :
  mask_unusable mask ->
  extractMaskData env (ResArray (SegObject mask (Some score) :: rest)) width height
  = Resolved (replicate (width * height) (if gtb score half then 255 else 0)%Z) /\
  gtb half half = false /\ gtb NaN half = false.
Proof.
  intros Hmask. split; [|split; reflexivity].
  unfold extractMaskData. cbn [via_segments].
  assert (Hnone : match mask with
                  | Some mask =>
                      or_else (via_toCanvas mask width height (alloc (width * height)))
                        (or_else (via_data mask width height (alloc (width * height)))
                           (via_toDataURL env mask width height))
                  | None => None
                  end = None).
  { destruct mask as [mask|]; [|done].
    destruct Hmask as (Hc & Hd & Hu).
    rewrite via_toCanvas_unusable, via_toDataURL_unusable by done.
    unfold via_data. by rewrite Hd. }
  rewrite Hnone. cbn [or_else via_score]. rewrite fill_alloc.
  by destruct (gtb score half).
Qed.

Lemma score_fallback_witness :
  extractMaskData offline_browser
    (ResArray [SegObject (Some broken_url_mask) (Some half)]) 2 1
  = Resolved [0; 0]%Z.
Proof.
  refine (proj1 (score_fallback offline_browser (Some broken_url_mask) half [] 2 1 _)).
  repeat split.
Defined.

(** The stored form of a missing sample is 0. *)
Lemma to_uint8_normalize_zero : to_uint8 (normalize_value zero) = 0%Z.
Proof. vm_compute. reflexivity. Qed.

Lemma alloc_lookup (n i : nat) : i < n -> alloc n !! i = Some 0%Z.
Proof. intros Hi. by apply lookup_replicate_2. Qed.

Lemma at_nat_beyond (data : arraylike) (i : nat) :
  length data <= i -> at_nat data i = None.
Proof.
  intros Hi. unfold at_nat.
  destruct (data !! i) as [v|] eqn:E; [|done].
  apply lookup_lt_Some in E. lia.
Qed.

Lemma at_nat_take (data : arraylike) (n i : nat) :
  i < n -> at_nat (take n data) i = at_nat data i.
Proof.
  intros Hi. unfold at_nat. f_equal. by apply lookup_take_lt.
Qed.

(** X3: a top-level [data] buffer is normalised entry by entry into a buffer
    of [width * height] bytes; where the buffer is shorter the entries stay
    0, and where it is longer the surplus is ignored. *)
Theorem top_level_data (env : Browser) (data : arraylike) (width height : nat) :
  exists buf,
    extractMaskData env (ResObject (Some data)) width height = Resolved buf /\
    length buf = width * height /\
    (forall i, i < width * height ->
       buf !! i = Some (to_uint8 (normalize_value (nullish_or (at_nat data i) zero)))) /\
    (forall i, length data <= i < width * height -> buf !! i = Some 0%Z) /\
    extractMaskData env (ResObject (Some (take (width * height) data))) width height
    = Resolved buf.
Proof.
  eexists. split; [reflexivity|].
  assert (Hlook : forall i, i < width * height ->
            for_loop (Nat.min (length data) (width * height)) (fun i maskData =>
                write maskData i
                  (Some (normalize_value (nullish_or (at_nat data i) zero))))
              (alloc (width * height)) !! i
            = Some (to_uint8 (normalize_value (nullish_or (at_nat data i) zero)))).
  { intros i Hi. destruct (decide (i < length data)) as [Hlt|Hge].
    - apply normalize_loop_lookup; [lia|done].
    - rewrite (store_loop_beyond _
                 (fun i => Some (normalize_value (nullish_or (at_nat data i) zero))))
        by lia.
      rewrite alloc_lookup by done.
      rewrite at_nat_beyond by lia. cbn [nullish_or default].
      by rewrite to_uint8_normalize_zero. }
  split; [by rewrite store_loop_length, alloc_length|].
  split; [exact Hlook|]. split.
  - intros i [Hge Hlt]. rewrite Hlook by done.
    rewrite at_nat_beyond by lia. cbn [nullish_or default].
    by rewrite to_uint8_normalize_zero.
  - cbn [extractMaskData via_segments via_result_data result_data or_else].
    f_equal. apply list_eq. intros i.
    destruct (decide (i < width * height)) as [Hi|Hi].
    + rewrite Hlook by done.
      destruct (decide (i < length (take (width * height) data))) as [Hlt|Hge].
      * rewrite (normalize_loop_lookup (take (width * height) data)); [|lia|done].
        by rewrite at_nat_take.
      * rewrite (store_loop_beyond _
                   (fun i => Some (normalize_value
                       (nullish_or (at_nat (take (width * height) data) i) zero))))
          by lia.
        rewrite alloc_lookup by done.
        rewrite length_take in Hge.
        rewrite at_nat_beyond by lia. cbn [nullish_or default].
        by rewrite to_uint8_normalize_zero.
    + rewrite !(proj2 (lookup_ge_None _ _)); [done|..];
        rewrite store_loop_length, alloc_length; lia.
Qed.

(** Reading a byte array and storing what was read: the byte, or 0 past the
    end. *)
Lemma to_uint8_read (pixels : u8array) (k : nat) :
  Forall is_u8 pixels ->
  to_uint8 (default NaN (read pixels k)) = default 0%Z (pixels !! k).
Proof.
  intros Hu8. unfold read.
  destruct (pixels !! k) as [z|] eqn:Hz; cbn [fmap option_fmap option_map default].
  - apply to_uint8_byte. rewrite Forall_forall in Hu8.
    apply Hu8. by eapply list_elem_of_lookup_2.
  - reflexivity.
Qed.

(** X4: when the canvas a mask renders to has the size of the target, the
    opacity buffer is the red channel of that canvas, pixel by pixel, with 0
    where the pixel data is too short. *)
Theorem canvas_same_size_red_channel
    (env : Browser) (score : option number) (rest : list Segment)
    (width height : nat) (pixels : u8array) (cw ch : number) :
  dims_differ cw ch width height = false ->
  Forall is_u8 pixels ->
  exists buf,
    extractMaskData env
      (ResArray (SegObject (Some (canvas_mask cw ch pixels)) score :: rest))
      width height = Resolved buf /\
    length buf = width * height /\
    forall i, i < width * height ->
      buf !! i = Some (default 0%Z (pixels !! (i * 4))).
Proof.
  intros Hsame Hu8. eexists. split.
  - unfold extractMaskData. cbn [via_segments or_else].
    unfold via_toCanvas. cbn [canvas_mask mask_toCanvas].
    unfold dims_differ in Hsame. rewrite Hsame. reflexivity.
  - split; [by rewrite store_loop_length, alloc_length|].
    intros i Hi.
    rewrite (store_loop_lookup _ (fun i => read pixels (i * 4)))
      by (rewrite ?alloc_length; done).
    by rewrite to_uint8_read.
Qed.

Lemma canvas_same_size_red_channel_witness :
  exists buf,
    extractMaskData offline_browser
      (ResArray [SegObject
         (Some (canvas_mask two one [7; 0; 0; 255; 9; 0; 0; 255]%Z)) None]) 2 1
    = Resolved buf /\ length buf = 2.
Proof.
  destruct (canvas_same_size_red_channel offline_browser None [] 2 1
              [7; 0; 0; 255; 9; 0; 0; 255]%Z two one eq_refl)
    as (buf & Hbuf & Hlen & _).
  - repeat constructor; unfold is_u8; lia.
  - exists buf. split; [exact Hbuf|exact Hlen].
Defined.

(** X5: the order of the probes.  A mask whose [toCanvas] gives pixels
    decides the result alone: [data], the declared size, [toDataURL], the
    score and the other segments are not looked at.  A [toCanvas] that
    throws, or whose canvas has no 2D context, counts as absent.  With a
    raw [data] buffer and no usable [toCanvas], [toDataURL], the score and
    the browser are not looked at. *)
Theorem probe_order
    (env env' : Browser) (mask : Mask) (score : option number)
    (rest : list Segment) (width height : nat) :
  (forall cw ch px,
     mask_toCanvas mask = Some (CanvasPixels cw ch px) ->
     extractMaskData env (ResArray (SegObject (Some mask) score :: rest))
       width height
     = extractMaskData env'
         (ResArray [SegObject (Some (canvas_mask cw ch px)) None]) width height) /\
  (toCanvas_unusable mask ->
     extractMaskData env (ResArray (SegObject (Some mask) score :: rest))
       width height
     = extractMaskData env
         (ResArray (SegObject (Some (without_toCanvas mask)) score :: rest))
         width height) /\
  (forall data,
     toCanvas_unusable mask -> mask_data mask = Some data ->
     extractMaskData env (ResArray (SegObject (Some mask) score :: rest))
       width height
     = extractMaskData env'
         (ResArray [SegObject
            (Some (raw_mask data (mask_width mask) (mask_height mask))) None])
         width height).
Proof.
  split; [|split].
  - intros cw ch px Hc. unfold extractMaskData. cbn [via_segments].
    unfold via_toCanvas. rewrite Hc. cbn [canvas_mask mask_toCanvas].
    by destruct (_ || _).
  - intros Hc. unfold extractMaskData. cbn [via_segments].
    rewrite (via_toCanvas_unusable mask) by done.
    reflexivity.
  - intros data Hc Hd. unfold extractMaskData. cbn [via_segments].
    rewrite (via_toCanvas_unusable mask) by done.
    unfold via_data. rewrite Hd. cbn [raw_mask mask_data mask_width mask_height
      via_toCanvas mask_toCanvas or_else].
    by destruct (_ || _).
Qed.

Lemma probe_order_witness :
  extractMaskData white_browser
    (ResArray [SegObject (Some layered_mask) (Some zero)]) 2 1
  = extractMaskData offline_browser
      (ResArray [SegObject (Some (raw_mask [Some one; Some zero] None None)) None])
      2 1.
Proof.
  exact (proj2 (proj2 (probe_order white_browser offline_browser layered_mask
                         (Some zero) [] 2 1))
           [Some one; Some zero] I eq_refl).
Defined.

(** ** Buffers of zeros and of bytes *)

(** A grid of stores of one value into a buffer already full of it. *)
Lemma grid_loop_constant {A : Type} (v : A) (val : nat -> nat -> A) (w h n : nat) :
  (forall x y, val x y = v) ->
  grid_loop val w h (replicate n v) = replicate n v.
Proof.
  intros Hval. unfold grid_loop.
  apply (for_loop_invariant (fun _ t => t = replicate n v)); [done|].
  intros y t _ ->.
  apply (for_loop_invariant (fun _ t => t = replicate n v)); [done|].
  intros x t _ ->. rewrite Hval. apply insert_replicate.
Qed.

Lemma store_loop_zeros (k n : nat) (val : nat -> option number) :
  (forall i, to_uint8 (default NaN (val i)) = 0%Z) ->
  for_loop k (fun i a => write a i (val i)) (alloc n) = replicate n 0%Z.
Proof.
  intros Hval.
  apply (for_loop_invariant (fun _ t => t = replicate n 0%Z)); [done|].
  intros i t _ ->. unfold write. rewrite Hval. apply insert_replicate.
Qed.

(** X6: an empty raw buffer is still a buffer.  Whatever size it declares,
    the opacity buffer is all 0 (fully transparent), not the opaque
    fallback: every sample is missing and a missing sample counts as 0. *)
Theorem empty_raw_buffer_is_transparent
    (env : Browser) (score : option number) (rest : list Segment)
    (width height : nat) (w h : option number) :
  extractMaskData env
    (ResArray (SegObject (Some (raw_mask [] w h)) score :: rest)) width height
  = Resolved (replicate (width * height) 0%Z).
Proof.
  unfold extractMaskData. cbn [via_segments or_else].
  unfold via_toCanvas, via_data. cbn [raw_mask mask_toCanvas mask_data or_else].
  cbv zeta. cbn [mask_width mask_height].
  destruct (_ || _); cbn [or_else]; f_equal.
  - rewrite resizeMask_grid. apply grid_loop_constant.
    intros x y. unfold resizeMask_sample, at_number, at_nat.
    destruct (to_index _); apply to_uint8_normalize_zero.
  - apply (store_loop_zeros _ _
             (fun i => Some (normalize_value (nullish_or (at_nat [] i) zero)))).
    intros i. apply to_uint8_normalize_zero.
Qed.

Lemma to_uint8_range (a : number) : is_u8 (to_uint8 a).
Proof.
  unfold to_uint8, is_u8. destruct (trunc a) as [z|]; [|lia].
  apply Z.mod_pos_bound. lia.
Qed.

Lemma Forall_alloc (n : nat) : Forall is_u8 (alloc n).
Proof. apply Forall_replicate. unfold is_u8. lia. Qed.

Lemma Forall_fill (a : u8array) (v : Z) : Forall is_u8 (fill a v).
Proof. apply Forall_replicate. apply Z.mod_pos_bound. lia. Qed.

Lemma Forall_store_loop (k : nat) (val : nat -> option number) (a : u8array) :
  Forall is_u8 a ->
  Forall is_u8 (for_loop k (fun i a => write a i (val i)) a).
Proof.
  intros Ha. apply (for_loop_invariant (fun _ t => Forall is_u8 t)); [done|].
  intros i t _ Ht. apply Forall_insert; [done|apply to_uint8_range].
Qed.

Lemma Forall_grid_loop (val : nat -> nat -> Z) (w h : nat) (a : u8array) :
  (forall x y, is_u8 (val x y)) -> Forall is_u8 a ->
  Forall is_u8 (grid_loop val w h a).
Proof.
  intros Hval Ha. unfold grid_loop.
  apply (for_loop_invariant (fun _ t => Forall is_u8 t)); [done|].
  intros y t _ Ht.
  apply (for_loop_invariant (fun _ t => Forall is_u8 t)); [done|].
  intros x t' _ Ht'. by apply Forall_insert.
Qed.

Lemma bytes_fill n v : bytes (Resolved (fill (alloc n) v)).
Proof. intros buf [= <-]. apply Forall_fill. Qed.

Lemma via_toCanvas_bytes mask w h r :
  via_toCanvas mask w h (alloc (w * h)) = Some r -> bytes r.
Proof.
  unfold via_toCanvas.
  destruct (mask_toCanvas mask) as [[| |cw ch px]|]; try done.
  destruct (_ || _); intros [= <-] buf [= <-].
  - rewrite resizeMaskFromImageData_grid.
    apply Forall_grid_loop; [|apply Forall_alloc].
    intros x y. apply to_uint8_range.
  - apply Forall_store_loop, Forall_alloc.
Qed.

Lemma via_data_bytes mask w h r :
  via_data mask w h (alloc (w * h)) = Some r -> bytes r.
Proof.
  unfold via_data.
  destruct (mask_data mask) as [data|]; [|done].
  cbv zeta. destruct (_ || _); intros [= <-] buf [= <-].
  - rewrite resizeMask_grid.
    apply Forall_grid_loop; [|apply Forall_alloc].
    intros x y. apply to_uint8_range.
  - apply (Forall_store_loop _
             (fun i => Some (normalize_value (nullish_or (at_nat data i) zero)))),
      Forall_alloc.
Qed.

Lemma extractMaskFromImage_bytes env url w h : bytes (extractMaskFromImage env url w h).
Proof.
  unfold extractMaskFromImage.
  destruct (image_loads env url); [|done].
  destruct (canvas_context env); [|done].
  intros buf [= <-]. apply Forall_store_loop, Forall_alloc.
Qed.

Lemma via_segments_bytes env result w h r :
  via_segments env result w h (alloc (w * h)) = Some r -> bytes r.
Proof.
  unfold via_segments.
  destruct result as [|[|[|mask score] rest]|]; try done.
  - intros [= <-]. apply bytes_fill.
  - intros [H|[_ H]]%or_else_Some.
    + destruct mask as [mask|]; [|done].
      apply or_else_Some in H as [H|[_ H]]; [by eapply via_toCanvas_bytes|].
      apply or_else_Some in H as [H|[_ H]]; [by eapply via_data_bytes|].
      unfold via_toDataURL in H.
      destruct (mask_toDataURL mask) as [[url|]|]; try done.
      injection H as <-. apply extractMaskFromImage_bytes.
    + unfold via_score in H. destruct score; [|done].
      injection H as <-. apply bytes_fill.
Qed.

(** Every buffer [extractMaskData] resolves with holds bytes. *)
Lemma extractMaskData_bytes env result width height buf :
  extractMaskData env result width height = Resolved buf -> Forall is_u8 buf.
Proof.
  unfold extractMaskData.
  pose proof (bytes_fill (width * height) 255) as Hfall.
  assert (Hrest : forall r,
            or_else (via_segments env result width height (alloc (width * height)))
              (via_result_data result width height (alloc (width * height)))
            = Some r -> bytes r).
  { intros r [H|[_ H]]%or_else_Some; [by eapply via_segments_bytes|].
    unfold via_result_data in H. destruct (result_data result) as [data|]; [|done].
    injection H as <-. intros buf' [= <-].
    apply (Forall_store_loop _
             (fun i => Some (normalize_value (nullish_or (at_nat data i) zero)))),
      Forall_alloc. }
  destruct result; [apply Hfall| |];
    (destruct (or_else _ _) as [r|]; [by apply Hrest|apply Hfall]).
Qed.

(** ** [extractMaskFromImage] and [applySegmentationMask] *)

(** X7: [extractMaskFromImage] rejects with "Failed to load mask image" when
    the image does not load, whatever the canvas would do, and with "Failed
    to get canvas context" when it loads but no 2D context is to be had;
    otherwise it resolves with [targetWidth * targetHeight] bytes, the red
    channel of the image drawn at the target size (0 where the pixel data
    is too short). *)
Theorem extractMaskFromImage_outcomes
    (env : Browser) (imageUrl : string) (targetWidth targetHeight : nat) :
  (image_loads env imageUrl = false ->
     extractMaskFromImage env imageUrl targetWidth targetHeight
     = Rejected "Failed to load mask image") /\
  (image_loads env imageUrl = true -> canvas_context env = false ->
     extractMaskFromImage env imageUrl targetWidth targetHeight
     = Rejected "Failed to get canvas context") /\
  (image_loads env imageUrl = true -> canvas_context env = true ->
     Forall is_u8 (drawn_pixels env imageUrl targetWidth targetHeight) ->
     exists buf,
       extractMaskFromImage env imageUrl targetWidth targetHeight = Resolved buf /\
       length buf = targetWidth * targetHeight /\
       forall i, i < targetWidth * targetHeight ->
         buf !! i
         = Some (default 0%Z
                   (drawn_pixels env imageUrl targetWidth targetHeight !! (i * 4)))).
Proof.
  unfold extractMaskFromImage. split; [|split].
  - by intros ->.
  - by intros -> ->.
  - intros -> -> Hu8. eexists. split; [reflexivity|].
    split; [by rewrite store_loop_length, alloc_length|].
    intros i Hi.
    rewrite (store_loop_lookup _
               (fun i => read (drawn_pixels env imageUrl targetWidth targetHeight)
                           (i * 4)))
      by (rewrite ?alloc_length; done).
    by rewrite to_uint8_read.
Qed.

Lemma extractMaskFromImage_outcomes_witness :
  extractMaskFromImage offline_browser "blob:mask" 2 2
    = Rejected "Failed to load mask image" /\
  exists buf,
    extractMaskFromImage white_browser "blob:mask" 2 2 = Resolved buf /\
    length buf = 4.
Proof.
  split.
  - exact (proj1 (extractMaskFromImage_outcomes offline_browser "blob:mask" 2 2)
             eq_refl).
  - destruct (proj2 (proj2 (extractMaskFromImage_outcomes white_browser
                              "blob:mask" 2 2)) eq_refl eq_refl)
      as (buf & Hbuf & Hlen & _).
    + repeat constructor; unfold is_u8; lia.
    + exists buf. split; [exact Hbuf|exact Hlen].
Defined.

(** X8: when [applySegmentationMask] resolves for a canvas of
    [width * height] pixels, the pixel data it puts on the output canvas
    has the length of the input, its alpha bytes are the opacity buffer
    [extractMaskData] resolved with, and its R, G and B bytes are those of
    the input. *)
Theorem applySegmentationMask_writes_mask_into_alpha
    (env : Browser) (pixels out : u8array) (width height : nat)
    (segmentationResult : SegResult) :
  length pixels = 4 * (width * height) ->
  applySegmentationMask env true (Some pixels) width height segmentationResult
  = Resolved out ->
  exists maskData,
    extractMaskData env segmentationResult width height = Resolved maskData /\
    length out = length pixels /\
    (forall i, i < width * height -> out !! (i * 4 + 3) = maskData !! i) /\
    (forall i c, c < 3 -> out !! (i * 4 + c) = pixels !! (i * 4 + c)).
Proof.
  intros Hpix. unfold applySegmentationMask.
  destruct (extractMaskData env segmentationResult width height)
    as [maskData|e] eqn:Hmask; [|done].
  intros [= <-]. exists maskData. split; [done|].
  pose proof (extractMaskData_length _ _ _ _ _ Hmask) as Hlen.
  pose proof (extractMaskData_bytes _ _ _ _ _ Hmask) as Hu8.
  rewrite composite_write_loop.
  split; [apply write_loop_length|]. split.
  - intros i Hi.
    pose proof (write_loop_lookup (fun i => i * 4 + 3)
                  (fun i => to_uint8_clamp (default NaN (read maskData i)))
                  (length maskData) pixels i) as Hl.
    cbv beta in Hl. etrans; [apply Hl; [intros; lia|lia|lia]|]. clear Hl.
    destruct (lookup_lt_is_Some_2 maskData i) as [z Hz]; [lia|].
    unfold read, u8array in *. rewrite Hz.
    cbn [fmap option_fmap option_map default]. f_equal.
    apply to_uint8_clamp_byte. rewrite Forall_forall in Hu8.
    apply Hu8. by eapply list_elem_of_lookup_2.
  - intros i c Hc.
    apply (write_loop_untouched (fun i => i * 4 + 3)). intros; lia.
Qed.

Lemma applySegmentationMask_writes_mask_into_alpha_witness :
  exists maskData,
    extractMaskData offline_browser ResFalsy 1 1 = Resolved maskData /\
    [10; 20; 30; 255]%Z !! 3 = maskData !! 0.
Proof.
  destruct (applySegmentationMask_writes_mask_into_alpha offline_browser
              [10; 20; 30; 77]%Z [10; 20; 30; 255]%Z 1 1 ResFalsy
              eq_refl eq_refl) as (maskData & Hmask & _ & Halpha & _).
  exists maskData. split; [exact Hmask|].
  exact (Halpha 0 (le_n 1)).
Defined.

(** ** The pipeline *)

Import Pipeline.

(** X9: the [onProgress] calls of any run of [removeBackground] are an
    initial part of one fixed sequence of nine calls, starting with
    ('loading-model', 0) and cut after the 0-call of the stage that failed;
    the run resolves exactly when all nine were made, and exactly then the
    last call reported is ('complete', 100). *)
Theorem removeBackground_events {Segmenter : Type} (w : World Segmenter) :
  let events := fst (removeBackground w) in
  let settled := snd (removeBackground w) in
  (exists k, k ∈ [1; 3; 5; 7; 9] /\ events = take k all_events) /\
  ((exists r, settled = Resolved r) <-> events = all_events) /\
  ((exists r, settled = Resolved r) <->
   last events = Some (emit StageComplete n100 "Done")).
Proof.
  cbv zeta. unfold removeBackground.
  destruct (model w) as [segmenter|e1]; cbn [fst snd].
  2:{ split; [exists 1; split; [rewrite !elem_of_cons; auto|reflexivity]|].
      split; (split; [intros [r Hr]; discriminate Hr|intros H; discriminate H]). }
  destruct (loadImageToCanvas _ _ _) as [loaded|e2]; cbn [fst snd].
  2:{ split; [exists 3; split; [rewrite !elem_of_cons; auto|reflexivity]|].
      split; (split; [intros [r Hr]; discriminate Hr|intros H; discriminate H]). }
  destruct (infer w segmenter (data_url w)) as [result|e3]; cbn [fst snd].
  2:{ split; [exists 5; split; [rewrite !elem_of_cons; auto|reflexivity]|].
      split; (split; [intros [r Hr]; discriminate Hr|intros H; discriminate H]). }
  destruct (applySegmentationMask _ _ _ _ _ _) as [out|e4]; cbn [fst snd].
  2:{ split; [exists 7; split; [rewrite !elem_of_cons; auto 10|reflexivity]|].
      split; (split; [intros [r Hr]; discriminate Hr|intros H; discriminate H]). }
  split; [exists 9; split; [rewrite !elem_of_cons; auto 10|reflexivity]|].
  split; (split; [intros _; reflexivity|intros _; eauto]).
Qed.

(** X10: when [removeBackground] resolves, the reported width and height are
    those of the decoded image, the processing time is the difference of
    the two clock readings, and the output is the 1024x1024 input canvas
    composited with the opacity buffer that [extractMaskData] makes, at
    1024x1024, of what the segmenter resolved with. *)
Theorem removeBackground_result {Segmenter : Type} (w : World Segmenter)
    (events : list StageEvent) (r : RemoveBackgroundResult) :
  removeBackground w = (events, Resolved r) ->
  decoded w = Some (resultWidth r, resultHeight r) /\
  processingTime r = sub (clock_end w) (clock_start w) /\
  exists segmenter result pixels maskData,
    model w = Resolved segmenter /\
    infer w segmenter (data_url w) = Resolved result /\
    image_data w = Some pixels /\
    extractMaskData (browser w) result 1024 1024 = Resolved maskData /\
    length maskData = 1024 * 1024 /\
    canvas r = composite pixels maskData.
Proof.
  unfold removeBackground, loadImageToCanvas, loadImage.
  destruct (model w) as [segmenter|e1]; [|done].
  destruct (decoded w) as [[iw ih]|]; [|done].
  destruct (canvas_2d w); [|done].
  cbn [canvasWidth canvasHeight ImageUtils.originalWidth ImageUtils.originalHeight].
  destruct (infer w segmenter (data_url w)) as [result|e3] eqn:Hinfer; [|done].
  unfold applySegmentationMask.
  destruct (output_2d w); [|done].
  destruct (image_data w) as [pixels|]; [|done].
  change MODEL_INPUT_SIZE with 1024.
  destruct (extractMaskData (browser w) result 1024 1024) as [maskData|e4] eqn:Hmask;
    [|done].
  intros [= _ <-]. cbn [resultWidth resultHeight processingTime canvas].
  split; [done|]. split; [done|].
  exists segmenter, result, pixels, maskData.
  repeat split; try done.
  by apply extractMaskData_length in Hmask.
Qed.

Lemma removeBackground_result_witness :
  removeBackground quiet_world = (all_events, Resolved quiet_result) /\
  decoded quiet_world = Some (2000, 1000).
Proof.
  split; [reflexivity|].
  exact (proj1 (removeBackground_result quiet_world all_events quiet_result eq_refl)).
Defined.

(** ** File validation *)

Import ImageFile.

(** X11: [validateImageFile] accepts a file exactly when its type is one of
    the three supported MIME types, compared as it is, and its size is at
    most 10 MB, that size included.  An accepted file carries no error and a
    refused one always carries one; an unsupported type is reported as
    such even when the file is also too large. *)
Theorem validateImageFile_accepts (file : File) :
  (valid (validateImageFile file) = true <->
   file_type file ∈ SUPPORTED_FORMATS /\ (file_size file <= 10485760)%N) /\
  (valid (validateImageFile file) = true -> error (validateImageFile file) = None) /\
  (valid (validateImageFile file) = false ->
   exists message, error (validateImageFile file) = Some message) /\
  (file_type file ∉ SUPPORTED_FORMATS ->
   error (validateImageFile file)
   = Some "Unsupported format. Please use JPG, PNG, or WebP.") /\
  (file_type file ∈ SUPPORTED_FORMATS -> (10485760 < file_size file)%N ->
   error (validateImageFile file) = Some "File too large. Maximum size is 10MB.").
Proof.
  unfold validateImageFile.
  change MAX_FILE_SIZE with 10485760%N.
  destruct (decide (file_type file ∈ SUPPORTED_FORMATS)) as [Hin|Hout].
  - rewrite (bool_decide_eq_true_2 _ Hin). cbn [negb].
    destruct (N.ltb_spec 10485760 (file_size file)) as [Hbig|Hok]; cbn [valid error].
    + split; [split; [discriminate|intros [_ H]; lia]|].
      split; [discriminate|]. split; [eauto|].
      split; [intros H; contradiction|reflexivity].
    + split; [split; [by intros _|reflexivity]|].
      split; [reflexivity|]. split; [discriminate|].
      split; [intros H; contradiction|intros _ H; lia].
  - rewrite (bool_decide_eq_false_2 _ Hout). cbn [negb valid error].
    split; [split; [discriminate|intros [H _]; contradiction]|].
    split; [discriminate|]. split; [eauto|].
    split; [reflexivity|intros H; contradiction].
Qed.

Lemma validateImageFile_accepts_witness :
  error (validateImageFile
           {| file_name := "scan.tiff"; file_type := "image/tiff";
              file_size := 20000000 |})
  = Some "Unsupported format. Please use JPG, PNG, or WebP.".
Proof.
  apply (proj1 (proj2 (proj2 (proj2 (validateImageFile_accepts
           {| file_name := "scan.tiff"; file_type := "image/tiff";
              file_size := 20000000 |}))))).
  apply (bool_decide_eq_false_1 (_ ∈ SUPPORTED_FORMATS)). reflexivity.
Defined.

(** ** The life cycle of the segmenter *)

Import ModelLifecycle.

Section LifecycleFacts.

Context {Segmenter : Type}.
Implicit Types (st : State Segmenter) (s : Segmenter).

(** The promise of a load just started is pending. *)
Lemma started_load_pending (promises : list (option (outcome Segmenter))) :
  (promises ++ [None]) !! length promises = Some (@None (outcome Segmenter)).
Proof. rewrite lookup_app_r by lia. by rewrite Nat.sub_diag. Qed.

Lemma getSegmenter_idle st :
  segmenterInstance st = None -> loadingPromise st = None ->
  getSegmenter st =
    ({| segmenterInstance := None;
        loadingPromise := Some (length (loads st));
        loads := loads st ++ [None] |}, InFlight (length (loads st))).
Proof. intros Hs Hp. unfold getSegmenter. by rewrite Hs, Hp. Qed.

End LifecycleFacts.

(** X12: the two status functions follow the load.  From a state with no
    instance and no load in flight, after any number of [getSegmenter]
    calls and until the load settles, [isModelLoading] holds and
    [isModelReady] does not; after the load has succeeded [isModelReady]
    holds and [isModelLoading] does not (although [loadingPromise] is still
    set); after it has failed neither holds. *)
Theorem status_follows_the_load
    {Segmenter : Type} (st : State Segmenter) (n : nat) (s : Segmenter)
    (b : backend_result Segmenter) (message : string) :
  segmenterInstance st = None ->
  loadingPromise st = None ->
  initializeModel b = Rejected message ->
  let p := length (loads st) in
  let loading := fst (calls (S n) st) in
  let loaded := settle loading p (Loaded s) in
  let failed := settle loading p b in
  (isModelReady st = false /\ isModelLoading st = false) /\
  (isModelReady loading = false /\ isModelLoading loading = true) /\
  (isModelReady loaded = true /\ isModelLoading loaded = false /\
   loadingPromise loaded = Some p) /\
  (isModelReady failed = false /\ isModelLoading failed = false).
Proof.
  intros Hs Hp Hb. cbv zeta. rewrite calls_idle by done. cbn [fst].
  unfold settle. cbn [loads]. rewrite started_load_pending, Hb.
  unfold isModelReady, isModelLoading.
  cbn [initializeModel resume segmenterInstance loadingPromise].
  rewrite Hs, Hp. done.
Qed.

Lemma status_follows_the_load_witness :
  isModelLoading (fst (calls 2 (@initial nat))) = true /\
  isModelReady (settle (fst (calls 2 (@initial nat))) 0 (Loaded 7)) = true.
Proof.
  pose proof (status_follows_the_load (@initial nat) 1 7 ThrowsOther
                "Failed to load model" eq_refl eq_refl eq_refl) as H.
  cbv zeta in H.
  split; [exact (proj2 (proj1 (proj2 H)))|exact (proj1 (proj1 (proj2 (proj2 H))))].
Defined.

(** X13: [preloadModel] changes the module state exactly as a [getSegmenter]
    call does.  From a state with no instance and nothing in flight it
    starts the one load, and any [getSegmenter] calls that follow join that
    load instead of starting another; in any other state it does
    nothing. *)
Theorem preload_is_a_first_call
    {Segmenter : Type} (st : State Segmenter) (n : nat) :
  preloadModel st = fst (getSegmenter st) /\
  (segmenterInstance st = None -> loadingPromise st = None ->
   calls n (preloadModel st)
   = (preloadModel st, replicate n (InFlight (length (loads st)))) /\
   length (loads (preloadModel st)) = S (length (loads st))) /\
  (isModelReady st = true \/ isModelLoading st = true -> preloadModel st = st).
Proof.
  unfold preloadModel, isModelReady, isModelLoading, getSegmenter.
  split; [|split].
  - destruct (segmenterInstance st), (loadingPromise st); reflexivity.
  - intros Hs Hp. rewrite Hs, Hp. cbn [fst]. split.
    + by apply calls_in_flight.
    + cbn [loads]. rewrite length_app. simpl. lia.
  - destruct (segmenterInstance st), (loadingPromise st);
      intros [H|H]; done.
Qed.

Lemma preload_is_a_first_call_witness :
  calls 2 (preloadModel (@initial nat))
  = (preloadModel (@initial nat), [InFlight 0; InFlight 0]).
Proof.
  exact (proj1 (proj1 (proj2 (preload_is_a_first_call (@initial nat) 2))
                  eq_refl eq_refl)).
Defined.



(** X15: [disposeModel] does not cancel a load in flight.  If it is called
    while a load is pending, the next [getSegmenter] call starts a second
    load while the first is still pending; when the first load then
    succeeds, its instance is cached all the same and handed to later
    callers; and when the second load succeeds, its instance replaces the
    first. *)
Theorem dispose_does_not_cancel
    {Segmenter : Type} (dispose : Segmenter -> Dispose)
    (st : State Segmenter) (s s' : Segmenter) :
  segmenterInstance st = None ->
  loadingPromise st = None ->
  let p := length (loads st) in
  let st1 := fst (getSegmenter st) in
  let st2 := fst (disposeModel dispose st1) in
  let st3 := fst (getSegmenter st2) in
  let st4 := settle st3 p (Loaded s) in
  let st5 := settle st4 (S p) (Loaded s') in
  snd (disposeModel dispose st1) = false /\
  snd (getSegmenter st2) = InFlight (S p) /\
  loads st3 !! p = Some None /\ loads st3 !! S p = Some None /\
  segmenterInstance st4 = Some s /\
  snd (getSegmenter st4) = Instance s /\
  loads st4 !! S p = Some None /\
  segmenterInstance st5 = Some s'.
Proof.
  intros Hs Hp. cbv zeta.
  rewrite (getSegmenter_idle st) by done. cbn [fst].
  unfold disposeModel. cbn [segmenterInstance loadingPromise loads fst snd].
  rewrite (getSegmenter_idle
             {| segmenterInstance := None; loadingPromise := None;
                loads := loads st ++ [None] |}) by reflexivity.
  cbn [fst snd loads].
  set (p := length (loads st)).
  assert (Hlen : length (loads st ++ [None]) = S p)
    by (rewrite length_app; simpl; lia).
  rewrite Hlen.
  assert (Hp0 : ((loads st ++ [None]) ++ [None]) !! p
                = Some (@None (outcome Segmenter))).
  { rewrite lookup_app_l by lia. apply started_load_pending. }
  assert (Hp1 : ((loads st ++ [None]) ++ [None]) !! S p
                = Some (@None (outcome Segmenter))).
  { rewrite <- Hlen. apply started_load_pending. }
  assert (Hp2 : forall x, (<[p := x]> ((loads st ++ [None]) ++ [None])) !! S p
                = Some (@None (outcome Segmenter))).
  { intros x. rewrite list_lookup_insert_ne by lia. exact Hp1. }
  split; [done|]. split; [done|].
  split; [exact Hp0|]. split; [exact Hp1|].
  assert (H4 : settle {| segmenterInstance := None; loadingPromise := Some (S p);
                         loads := (loads st ++ [None]) ++ [None] |} p (Loaded s)
               = {| segmenterInstance := Some s; loadingPromise := Some (S p);
                    loads := <[p := Some (Resolved s)]>
                               ((loads st ++ [None]) ++ [None]) |}).
  { unfold settle. cbn [loads]. by rewrite Hp0. }
  rewrite !H4. cbn [segmenterInstance loads].
  split; [done|]. split; [done|].
  split; [apply Hp2|].
  unfold settle. cbn [loads]. by rewrite Hp2.
Qed.

Lemma dispose_does_not_cancel_witness :
  let st3 := fst (getSegmenter (fst (disposeModel (fun _ : nat => DisposeReturns)
                 (fst (getSegmenter initial))))) in
  loads st3 = [None; None] /\
  segmenterInstance (settle st3 0 (Loaded 7)) = Some 7.
Proof.
  cbv zeta. split; [reflexivity|].
  exact (proj1 (proj2 (proj2 (proj2 (proj2
    (dispose_does_not_cancel (fun _ : nat => DisposeReturns) initial 7 8
       eq_refl eq_refl)))))).
Defined.

(** ** What the progress callback receives *)

Section DeliveryFacts.

Context {Segmenter : Type}.
Implicit Types (st : State Segmenter) (raw : list ProgressInfo)
  (b : backend_result Segmenter).

(** With a cached instance every call is told that the model is ready. *)
Lemma deliveries_cached st s n raw b :
  segmenterInstance st = Some s ->
  deliveries n st raw b = replicate n [ready_event].
Proof.
  intros Hs. induction n as [|n IH]; [done|].
  cbn [deliveries replicate]. unfold delivered, getSegmenter at 1.
  rewrite Hs. cbn [fst]. by rewrite IH.
Qed.

(** While a load is in flight no call is told anything. *)
Lemma deliveries_in_flight st p n raw b :
  segmenterInstance st = None -> loadingPromise st = Some p ->
  deliveries n st raw b = replicate n [].
Proof.
  intros Hs Hp. induction n as [|n IH]; [done|].
  cbn [deliveries replicate]. unfold delivered, getSegmenter at 1.
  rewrite Hs, Hp. cbn [fst]. by rewrite IH.
Qed.

(** From a state with no instance and no load in flight, the first call is
    told about the load it starts and the others are told nothing. *)
Lemma deliveries_idle st n raw b :
  segmenterInstance st = None -> loadingPromise st = None ->
  deliveries (S n) st raw b = initializeModel_progress raw b :: replicate n [].
Proof.
  intros Hs Hp. cbn [deliveries]. rewrite getSegmenter_idle by done.
  cbn [fst]. unfold delivered at 1. rewrite Hs, Hp. f_equal.
  by apply (deliveries_in_flight _ (length (loads st))).
Qed.

End DeliveryFacts.

(** X16: of the [getSegmenter] calls that share one load, only the one that
    started it is told about it.  From a state with no instance and no load
    in flight, of any number of calls made before the load settles the
    first receives (initiate, 0), the normalised form of every raw event in
    order and, only if the load succeeds, (ready, 100); each of the others
    receives nothing, then or later.  Once the load has succeeded, every
    further call receives the one event (ready, 100).  Once it has failed,
    the next call starts over: it receives the events of a load of its
    own, and the calls after it nothing. *)
Theorem one_caller_hears_the_load
    {Segmenter : Type} (st : State Segmenter) (n k : nat)
    (raw raw' : list ProgressInfo) (b b' : backend_result Segmenter) :
  segmenterInstance st = None ->
  loadingPromise st = None ->
  let settled := settle (fst (calls (S n) st)) (length (loads st)) b in
  deliveries (S n) st raw b
  = (initiate_event :: (normalizeProgress <$> raw)
       ++ match b with Loaded _ => [ready_event] | _ => [] end)
    :: replicate n [] /\
  match b with
  | Loaded _ => deliveries k settled raw' b' = replicate k [ready_event]
  | _ =>
      deliveries (S k) settled raw' b'
      = (initiate_event :: (normalizeProgress <$> raw')
           ++ match b' with Loaded _ => [ready_event] | _ => [] end)
        :: replicate k []
  end.
Proof.
  intros Hs Hp. cbv zeta. split; [by apply deliveries_idle|].
  rewrite calls_idle by done. cbn [fst].
  unfold settle. cbn [loads]. rewrite started_load_pending.
  destruct b as [s|message|];
    cbn [initializeModel resume segmenterInstance loadingPromise loads].
  - by apply (deliveries_cached _ s).
  - by apply deliveries_idle.
  - by apply deliveries_idle.
Qed.

Lemma one_caller_hears_the_load_witness :
  deliveries 3 (@initial nat) [bytes_event "model.onnx" 50 200] (Loaded 7)
  = [[initiate_event; normalizeProgress (bytes_event "model.onnx" 50 200);
      ready_event]; []; []] /\
  deliveries 2 (settle (fst (calls 3 (@initial nat))) 0 (Loaded 7)) [] ThrowsOther
  = [[ready_event]; [ready_event]].
Proof.
  exact (one_caller_hears_the_load (@initial nat) 2 2
           [bytes_event "model.onnx" 50 200] [] (Loaded 7) ThrowsOther
           eq_refl eq_refl).
Defined.

Lemma truthy_of_nat (k : nat) :
  0 < k -> (Z.of_nat k < 2 ^ 53)%Z -> truthy (of_nat k) = true.
Proof.
  intros Hk Hk53. unfold of_nat, of_Z, binary_normalize.
  destruct (Z.of_nat k) as [|pk|pk] eqn:Ek; [lia| |lia].
  destruct (binary_round_small false pk) as (m & x & -> & _);
    [apply digits2_pos_le; lia|done].
Qed.

(** The percentage of one well-formed raw event. *)
Lemma percentage_in_range (e : ProgressInfo) :
  well_formed_raw e ->
  exists p : Z, (0 <= p <= 100)%Z /\ percentage e = of_Z p.
Proof.
  unfold well_formed_raw, percentage.
  intros [Hst|[Hmiss|(l & t & Hl & Ht & Hlt & Hbound)]].
  - destruct (status e); cbn [is_progress is_done is_ready andb];
      try (by exists 0%Z); try (by exists 100%Z); done.
  - rewrite <- andb_assoc, Hmiss, andb_false_r.
    destruct (status e); cbn [is_done is_ready];
      try (by exists 0%Z); by exists 100%Z.
  - rewrite Hl, Ht. cbn [truthy_prop default].
    rewrite !truthy_of_nat by lia. rewrite !andb_true_r.
    destruct (status e); cbn [is_progress is_done is_ready];
      try (by exists 0%Z); try (by exists 100%Z).
    by apply percentage_of_counts.
Qed.

(** X17: when the raw events of a load are well formed, every event a
    [getSegmenter] caller's [onProgress] receives carries a whole
    percentage between 0 and 100. *)
Theorem delivered_percentages_in_range
    {Segmenter : Type} (st : State Segmenter) (raw : list ProgressInfo)
    (b : backend_result Segmenter) :
  Forall well_formed_raw raw ->
  Forall (fun e => exists p : Z, (0 <= p <= 100)%Z /\ progress e = Some (of_Z p))
    (delivered st raw b).
Proof.
  intros Hraw. unfold delivered, initializeModel_progress.
  assert (Hready : exists p : Z, (0 <= p <= 100)%Z /\
                     progress ready_event = Some (of_Z p))
    by (exists 100%Z; done).
  destruct (segmenterInstance st); [by repeat constructor|].
  destruct (loadingPromise st); [constructor|].
  constructor; [by exists 0%Z|]. apply Forall_app. split.
  - apply Forall_fmap. eapply Forall_impl; [exact Hraw|].
    intros e He. destruct (percentage_in_range e He) as (p & Hp & Heq).
    exists p. split; [done|]. cbn [normalizeProgress progress]. by rewrite Heq.
  - destruct b; by repeat constructor.
Qed.

Lemma delivered_percentages_in_range_witness :
  Forall (fun e => exists p : Z, (0 <= p <= 100)%Z /\ progress e = Some (of_Z p))
    (delivered (@initial nat) [bytes_event "model.onnx" 50 200] (Loaded 7)).
Proof.
  apply delivered_percentages_in_range.
  constructor; [|constructor].
  right. right. exists 50, 200. repeat split; try reflexivity; lia.
Defined.

(* ===================================================================== *)
(** * The hook *)
(* ===================================================================== *)




(** X18: [processImage] called while a run is in progress does nothing: on
    a hook whose [isProcessingRef] is set, any sequence of calls and
    progress callbacks leaves the hook as the callbacks alone leave it, and
    the flag stays set. *)
Theorem busy_hook_ignores_calls (h : Hook.HookState)
    (actions : list Hook.Action) :
  Hook.isProcessingRef h = true ->
  Forall (fun a => is_call_or_callback a = true) actions ->
  Hook.exec h actions = Hook.exec h (filter (fun a => is_callback a = true) actions)
  /\ Hook.isProcessingRef (Hook.exec h actions) = true.
Proof.
  intros Hbusy Hall. revert h Hbusy.
  induction Hall as [|a actions Ha _ IH]; intros h Hbusy; [done|].
  destruct a as [url file|ev|p| |]; try discriminate.
  - change (Hook.exec h (Hook.Call url file :: actions))
      with (Hook.exec (Hook.step h (Hook.Call url file)) actions).
    assert (Hstep : Hook.step h (Hook.Call url file) = h).
    { unfold Hook.step, Hook.processImage_begin. by rewrite Hbusy. }
    rewrite Hstep. rewrite filter_cons_False by (cbn; discriminate).
    by apply IH.
  - rewrite filter_cons_True by done.
    change (Hook.exec h (Hook.StageCallback ev :: ?l))
      with (Hook.exec (Hook.step h (Hook.StageCallback ev)) l).
    apply IH. exact Hbusy.
  - rewrite filter_cons_True by done.
    change (Hook.exec h (Hook.ModelCallback p :: ?l))
      with (Hook.exec (Hook.step h (Hook.ModelCallback p)) l).
    apply IH. exact Hbusy.
Qed.

Lemma busy_hook_ignores_calls_witness :
  let h := Hook.exec Hook.initialHook [Hook.Call "blob:1" holiday_jpg] in
  let ev := Pipeline.emit Pipeline.StageInference zero "Processing image..." in
  Hook.exec h [Hook.Call "blob:2" notes_pdf; Hook.StageCallback ev;
               Hook.Call "blob:3" holiday_jpg]
  = Hook.exec h [Hook.StageCallback ev]
  /\ Hook.isProcessingRef
       (Hook.exec h [Hook.Call "blob:2" notes_pdf; Hook.StageCallback ev;
                     Hook.Call "blob:3" holiday_jpg]) = true.
Proof.
  apply (busy_hook_ignores_calls
           (Hook.exec Hook.initialHook [Hook.Call "blob:1" holiday_jpg])
           [Hook.Call "blob:2" notes_pdf;
            Hook.StageCallback
              (Pipeline.emit Pipeline.StageInference zero "Processing image...");
            Hook.Call "blob:3" holiday_jpg]).
  - reflexivity.
  - repeat constructor.
Defined.

Lemma validateImageFile_invalid_error (file : ImageFile.File) :
  ImageFile.valid (ImageFile.validateImageFile file) = false ->
  exists msg, ImageFile.error (ImageFile.validateImageFile file) = Some msg
              /\ msg <> "".
Proof.
  unfold ImageFile.validateImageFile.
  destruct (negb _); [intros _; by eexists|].
  destruct (_ <? _)%N; [intros _; by eexists|]. discriminate.
Qed.




(** X20: [processImage] on an idle hook and a file that fails validation
    never reaches [removeBackground]: it ends at once in status error with
    the message of the validation, which is not empty, with the rejected
    file as [originalFile], the preview of the file before it left as it
    was, no result, and [isProcessingRef] cleared. *)
Theorem processImage_invalid_file (h : Hook.HookState) (objectUrl : string)
    (file : ImageFile.File) :
  Hook.isProcessingRef h = false ->
  ImageFile.valid (ImageFile.validateImageFile file) = false ->
  exists h' msg,
    Hook.processImage_begin objectUrl file h = (h', false)
    /\ ImageFile.error (ImageFile.validateImageFile file) = Some msg
    /\ msg <> ""
    /\ Hook.status (Hook.state h') = Hook.Error
    /\ Hook.error (Hook.state h') = Some msg
    /\ Hook.originalFile (Hook.state h') = Some file
    /\ Hook.originalPreview (Hook.state h')
       = Hook.originalPreview (Hook.state h)
    /\ Hook.result (Hook.state h') = None
    /\ Hook.resultPreview (Hook.state h') = None
    /\ Hook.isProcessingRef h' = false.
Proof.
  intros Hidle Hinvalid.
  destruct (validateImageFile_invalid_error file Hinvalid) as (msg & Hmsg & Hne).
  unfold Hook.processImage_begin. rewrite Hidle, Hinvalid. cbn [negb].
  eexists _, msg. split; [reflexivity|]. rewrite Hmsg. by repeat split.
Qed.

Lemma processImage_invalid_file_witness :
  exists h' msg,
    Hook.processImage_begin "blob:2" notes_pdf Hook.initialHook = (h', false)
    /\ ImageFile.error (ImageFile.validateImageFile notes_pdf) = Some msg
    /\ msg <> ""
    /\ Hook.status (Hook.state h') = Hook.Error
    /\ Hook.error (Hook.state h') = Some msg
    /\ Hook.originalFile (Hook.state h') = Some notes_pdf
    /\ Hook.originalPreview (Hook.state h')
       = Hook.originalPreview (Hook.state Hook.initialHook)
    /\ Hook.result (Hook.state h') = None
    /\ Hook.resultPreview (Hook.state h') = None
    /\ Hook.isProcessingRef h' = false.
Proof.
  apply (processImage_invalid_file Hook.initialHook "blob:2" notes_pdf).
  - reflexivity.
  - reflexivity.
Defined.

(** X21: [reset] does not cancel a run.  After [reset] in the middle of a
    run the flag is cleared, so the next [processImage] starts a second
    run beside the first; and when the first run then resolves, its result
    is written into the state that was reset: status complete with that
    result, but no original file, so a download takes the fallback name. *)
Theorem reset_does_not_cancel (h : Hook.HookState) (objectUrl preview : string)
    (file : ImageFile.File) (res : Pipeline.RemoveBackgroundResult) :
  ImageFile.valid (ImageFile.validateImageFile file) = true ->
  snd (Hook.processImage_begin objectUrl file (Hook.reset h)) = true
  /\ let late := Hook.state (Hook.exec h [Hook.Reset;
                                         Hook.Settle preview (Resolved res)]) in
     Hook.status late = Hook.Complete
     /\ Hook.result late = Some res
     /\ Hook.resultPreview late = Some preview
     /\ Hook.originalFile late = None
     /\ Hook.originalPreview late = None
     /\ Hook.download_filename None late = Some "removed-background.png".
Proof.
  intros Hvalid. split.
  - unfold Hook.processImage_begin. cbn [Hook.reset Hook.isProcessingRef].
    by rewrite Hvalid.
  - by repeat split.
Qed.

Lemma reset_does_not_cancel_witness :
  snd (Hook.processImage_begin "blob:1" holiday_jpg
         (Hook.reset Hook.initialHook)) = true
  /\ let late := Hook.state (Hook.exec Hook.initialHook
                    [Hook.Reset;
                     Hook.Settle "data:," (Resolved quiet_result)]) in
     Hook.status late = Hook.Complete
     /\ Hook.result late = Some quiet_result
     /\ Hook.resultPreview late = Some "data:,"
     /\ Hook.originalFile late = None
     /\ Hook.originalPreview late = None
     /\ Hook.download_filename None late = Some "removed-background.png".
Proof.
  apply (reset_does_not_cancel Hook.initialHook "blob:1" "data:,"
           holiday_jpg quiet_result).
  reflexivity.
Defined.

Lemma append_cons (c : Ascii.ascii) (a b : string) :
  String c a +:+ b = String c (a +:+ b).
Proof. reflexivity. Qed.

Lemma append_nil (b : string) : "" +:+ b = b.
Proof. reflexivity. Qed.

Lemma append_empty (a : string) : a +:+ "" = a.
Proof. induction a as [|c a IH]; [done|]. by rewrite append_cons, IH. Qed.

Lemma no_dot_or_slash_app (a b : string) :
  Hook.no_dot_or_slash (a +:+ b)
  = Hook.no_dot_or_slash a && Hook.no_dot_or_slash b.
Proof.
  induction a as [|c a IH]; [done|].
  rewrite append_cons. cbn [Hook.no_dot_or_slash]. rewrite IH.
  by rewrite !andb_assoc.
Qed.

Lemma strip_extension_before (base tail : string) :
  Hook.no_dot_or_slash tail = false ->
  Hook.strip_extension (base +:+ tail) = base +:+ Hook.strip_extension tail.
Proof.
  intros Htail. induction base as [|c base IH]; [done|].
  rewrite !append_cons. cbn [Hook.strip_extension].
  rewrite no_dot_or_slash_app, Htail, andb_false_r, andb_false_r.
  by rewrite IH.
Qed.

Lemma strip_extension_plain (name : string) :
  Hook.no_dot_or_slash name = true -> Hook.strip_extension name = name.
Proof.
  induction name as [|c name IH]; [done|].
  cbn [Hook.no_dot_or_slash Hook.strip_extension].
  intros H. apply andb_prop in H as [H1 H2]. apply andb_prop in H1 as [H1 _].
  apply negb_true_iff in H1. rewrite H1. cbn [andb]. by rewrite IH.
Qed.

(** X22: the extension [downloadResult] strips is the part after the last
    dot of the file name, and only when that part is not empty and holds
    no slash.  A name [base.ext] with such an [ext] gives [base], whatever
    dots and slashes [base] holds; a name that ends in a dot, and a name
    whose last dot is followed by a slash, are left as they are. *)
Theorem strip_extension_last_dot (base ext : string) :
  Hook.no_dot_or_slash ext = true ->
  (ext <> "" -> Hook.strip_extension (base +:+ "." +:+ ext) = base)
  /\ Hook.strip_extension (base +:+ ".") = base +:+ "."
  /\ Hook.strip_extension (base +:+ "./" +:+ ext) = base +:+ "./" +:+ ext.
Proof.
  intros Hext. split; [|split].
  - intros Hne. rewrite strip_extension_before by done.
    rewrite append_cons, append_nil. cbn [Hook.strip_extension]. rewrite Hext.
    destruct ext as [|c ext]; [done|].
    cbn. apply append_empty.
  - rewrite strip_extension_before by done.
    by cbn.
  - rewrite strip_extension_before by done.
    rewrite !append_cons, append_nil.
    cbn [Hook.strip_extension Hook.no_dot_or_slash].
    rewrite andb_false_r. cbn.
    by rewrite strip_extension_plain.
Qed.

Lemma strip_extension_last_dot_witness :
  Hook.no_dot_or_slash "jpg" = true
  /\ ("jpg" <> "" ->
      Hook.strip_extension ("my.photos/holiday.2024" +:+ "." +:+ "jpg")
      = "my.photos/holiday.2024")
  /\ Hook.strip_extension ("my.photos/holiday.2024" +:+ ".")
     = "my.photos/holiday.2024" +:+ "."
  /\ Hook.strip_extension ("my.photos/holiday.2024" +:+ "./" +:+ "jpg")
     = "my.photos/holiday.2024" +:+ "./" +:+ "jpg".
Proof.
  split; [reflexivity|].
  apply (strip_extension_last_dot "my.photos/holiday.2024" "jpg").
  reflexivity.
Defined.

(** X23: the file name of a download.  With a result in the state and an
    original file named [base.ext], where [ext] is not empty and holds no
    dot and no slash, [downloadResult()] saves under [base-no-bg.png]; a
    name passed by the caller is used as it is. *)
Theorem download_filename_default (s : Hook.BackgroundRemovalState)
    (res : Pipeline.RemoveBackgroundResult) (file : ImageFile.File)
    (base ext : string) :
  Hook.result s = Some res ->
  Hook.originalFile s = Some file ->
  ImageFile.file_name file = base +:+ "." +:+ ext ->
  Hook.no_dot_or_slash ext = true ->
  ext <> "" ->
  Hook.download_filename None s = Some (base +:+ "-no-bg.png")
  /\ forall filename,
       Hook.download_filename (Some filename) s = Some filename.
Proof.
  intros Hres Hfile Hname Hext Hne. unfold Hook.download_filename.
  rewrite Hres, Hfile, Hname. split; [|done]. cbn [default].
  rewrite strip_extension_before by done.
  rewrite append_cons, append_nil. cbn [Hook.strip_extension]. rewrite Hext.
  destruct ext as [|c ext]; [done|]. cbn. by rewrite append_empty.
Qed.

Lemma download_filename_default_witness :
  let s := Hook.state (Hook.exec Hook.initialHook
             [Hook.Call "blob:1" holiday_jpg;
              Hook.Settle "data:," (Resolved quiet_result)]) in
  Hook.download_filename None s = Some "holiday.2024-no-bg.png"
  /\ forall filename,
       Hook.download_filename (Some filename) s = Some filename.
Proof.
  apply (download_filename_default
           (Hook.state (Hook.exec Hook.initialHook
              [Hook.Call "blob:1" holiday_jpg;
               Hook.Settle "data:," (Resolved quiet_result)]))
           quiet_result holiday_jpg "holiday.2024" "jpg").
  - reflexivity.
  - reflexivity.
  - reflexivity.
  - reflexivity.
  - discriminate.
Defined.

(* ===================================================================== *)
(** * The components *)
(* ===================================================================== *)



Lemma number_same_eq (a b : number) : number_same a b = true -> a = b.
Proof.
  destruct a as [s|s| |s m e], b as [s'|s'| |s' m' e']; try discriminate.
  - cbn. intros H. by apply Bool.eqb_prop in H as ->.
  - cbn. intros H. by apply Bool.eqb_prop in H as ->.
  - done.
  - cbn. intros H. apply andb_prop in H as [H He].
    apply andb_prop in H as [Hs Hm].
    apply Bool.eqb_prop in Hs as ->. apply Pos.eqb_eq in Hm as ->.
    by apply Z.eqb_eq in He as ->.
Qed.

(** X25: in the loading stage the bar of [ProgressIndicator] shows half the
    model's percentage, rounded half up: for every whole percentage [m]
    from 0 to 100, [getOverallProgress] gives [(m + 1) / 2], from 0 at 0
    percent to 50 at 100 percent, whatever the processing percentage. *)
Theorem overall_progress_loading (m : nat) (processingProgress : number) :
  (m <= 100)%nat ->
  Components.getOverallProgress Hook.LoadingModel (of_Z (Z.of_nat m))
    processingProgress
  = of_Z ((Z.of_nat m + 1) / 2).
Proof.
  intros Hm.
  assert (Hall : forallb loading_bar_ok (seq 0 101) = true)
    by (vm_compute; reflexivity).
  rewrite forallb_forall in Hall.
  apply number_same_eq, (Hall m), in_seq. lia.
Qed.

Lemma overall_progress_loading_witness :
  Components.getOverallProgress Hook.LoadingModel (of_Z (Z.of_nat 37)) n100
  = of_Z ((Z.of_nat 37 + 1) / 2).
Proof. apply (overall_progress_loading 37 n100). lia. Defined.

(** X26: in the processing stage the bar of [ProgressIndicator] stays within
    60..95 and never goes back: for whole percentages [p <= q] from 0 to
    100, [getOverallProgress] gives integers [v] and [w] with
    [60 <= v <= w <= 95], whatever the model's percentage.  The integer is
    60 plus 0.35 times the percentage rounded half up, except at 90
    percent, where the bar shows 91 and not 92. *)
Theorem overall_progress_processing (p q : nat) (modelProgress : number) :
  (p <= q)%nat -> (q <= 100)%nat ->
  exists v w : Z,
    Components.getOverallProgress Hook.Processing modelProgress
      (of_Z (Z.of_nat p)) = of_Z v
    /\ Components.getOverallProgress Hook.Processing modelProgress
         (of_Z (Z.of_nat q)) = of_Z w
    /\ (60 <= v)%Z /\ (v <= w)%Z /\ (w <= 95)%Z
    /\ v = processing_bar_value p /\ w = processing_bar_value q.
Proof.
  intros Hpq Hq.
  assert (Hall : forallb (fun q => forallb (fun p => processing_bars_ok p q)
                                     (seq 0 (S q))) (seq 0 101) = true)
    by (vm_compute; reflexivity).
  rewrite forallb_forall in Hall.
  assert (Hin : In q (seq 0 101)) by (apply in_seq; lia).
  specialize (Hall q Hin). rewrite forallb_forall in Hall.
  assert (Hin' : In p (seq 0 (S q))) by (apply in_seq; lia).
  specialize (Hall p Hin'). unfold processing_bars_ok in Hall.
  destruct (processing_bar p) as [v|]; [|discriminate].
  destruct (processing_bar q) as [w|]; [|discriminate].
  repeat (apply andb_prop in Hall as [Hall ?]).
  exists v, w. repeat split.
  - by apply number_same_eq.
  - by apply number_same_eq.
  - lia.
  - lia.
  - lia.
  - lia.
  - lia.
Qed.

Lemma overall_progress_processing_witness :
  exists v w : Z,
    Components.getOverallProgress Hook.Processing zero
      (of_Z (Z.of_nat 10)) = of_Z v
    /\ Components.getOverallProgress Hook.Processing zero
         (of_Z (Z.of_nat 90)) = of_Z w
    /\ (60 <= v)%Z /\ (v <= w)%Z /\ (w <= 95)%Z
    /\ v = processing_bar_value 10 /\ w = processing_bar_value 90.
Proof. apply (overall_progress_processing 10 90 zero); lia. Defined.
